(** * A shallow embedding of [parsing/parse.py] (transition-based UCCA parser)

    The control loop of the parser ([Parser.predict_action],
    [Parser.check_loop], [Parser.parse_passage], [Parser.parse],
    [Parser.train]), the batch reader ([read_passages]) and the k-fold
    driver ([main]) are translated into Rocq functions, and the properties
    the specification states about them are proved (or refuted) here.

    Conventions.
    - Python floats (classifier scores, learning rates, F1 scores) are
      rationals [Q]; comparisons are the exact ones.
    - A Python [dict] whose iteration order matters ([self.scores]) is an
      association list in insertion order; a Python [set] of hashes is a
      [gset Z].
    - Exceptions are values of [exn]; a computation returns an [outcome].
      The [while True] loop of [parse_passage] takes fuel, and running out
      of it is the third outcome [NoFuel], which no handler catches.
    - The random generator is a tape of draws, and the model files are a
      value of the collaborators' type [Disk]; both are part of the state
      that the computations pass along.
    - The modules that [parse.py] imports but that are not part of this
      file ([Action], [State], [Oracle], [AveragedPerceptron],
      [FeatureExtractor], [Config], [ucca.*]) are the fields of the record
      [Collab]; every definition and theorem is parametric in it. *)

From Stdlib Require Import QArith.
From stdpp Require Import base list gmap strings sorting pretty.

Local Open Scope list_scope.

(** ** Exceptions and outcomes *)

(** The messages of the [ParserException]s raised in [parse.py]. *)
Inductive ParserError : Type :=
  | ErrOracleTraining            (* "Error in oracle during training" *)
  | ErrInvalidTransition (aid : Z) (* "Invalid transition: %s" % action *)
  | ErrNoValidActions.           (* "No valid actions available\n..." *)

(** The [assert] statements of [parse.py] and of its collaborators. *)
Inductive Assertion : Type :=
  | AssertUnannotated            (* "Cannot train on unannotated passage" *)
  | AssertTransitionLoop         (* the assert of [check_loop] *)
  | AssertVerify                 (* "Failed to produce true passage" *)
  | AssertFolds                  (* "%d folds are not possible with ..." *)
  | AssertCollab.                (* an assert inside State or Oracle *)

Inductive exn : Type :=
  | ParserException (e : ParserError)
  | AssertionError (a : Assertion)
  | AttributeError
  | TypeError
  | ValueError
  | IndexError
  | StopIteration
  | ParseError
  | IOError (msg : string).

Inductive outcome (A : Type) : Type :=
  | Ret (a : A)
  | Raise (e : exn)
  | NoFuel.
Arguments Ret {A} a.
Arguments Raise {A} e.
Arguments NoFuel {A}.

(** ** The Python built-ins that the parser uses *)

Module Py.

Definition Qltb (x y : Q) : bool := negb (Qle_bool y x).

(** [a > b] on values that may be [None]: comparing with [None] raises
    [TypeError]. *)
Definition gt (a b : option Q) : outcome bool :=
  match a, b with
  | Some x, Some y => Ret (Qltb y x)
  | _, _ => Raise TypeError
  end.

(** The loop of [max(iterable, key=key)]: the running maximum is replaced
    only by a strictly greater key, so the first maximal item wins. *)
Fixpoint max_from {A} (key : A -> option Q) (maxitem : A)
    (maxval : option Q) (l : list A) : outcome A :=
  match l with
  | [] => Ret maxitem
  | item :: rest =>
      match gt (key item) maxval with
      | Ret true => max_from key item (key item) rest
      | Ret false => max_from key maxitem maxval rest
      | Raise e => Raise e
      | NoFuel => NoFuel
      end
  end.

(** [max(l, key=key)]; an empty argument raises [ValueError]. *)
Definition max {A} (key : A -> option Q) (l : list A) : outcome A :=
  match l with
  | [] => Raise ValueError
  | item :: rest => max_from key item (key item) rest
  end.

(** Stable insertion of a later item into an ascending list: it goes
    after every item whose key is not greater than its own. *)
Fixpoint insert_stable {A} (x : Q * A) (l : list (Q * A)) : list (Q * A) :=
  match l with
  | [] => [x]
  | y :: t => if Qltb x.1 y.1 then x :: y :: t else y :: insert_stable x t
  end.

Definition stable_sort {A} (l : list (Q * A)) : list (Q * A) :=
  fold_left (fun acc x => insert_stable x acc) l [].

Definition decorate {A} (key : A -> option Q) (l : list A)
    : option (list (Q * A)) :=
  mapM (fun x => match key x with Some k => Some (k, x) | None => None end) l.

(** [sorted(l, key=key)]: ascending in the key, stable; with two items or
    more a [None] key makes a comparison raise [TypeError]. *)
Definition sorted {A} (key : A -> option Q) (l : list A) : outcome (list A) :=
  match l with
  | [] | [_] => Ret l
  | _ =>
      match decorate key l with
      | Some d => Ret ((stable_sort d).*2)
      | None => Raise TypeError
      end
  end.

(** A [dict] from ids to scores, in insertion order. *)
Definition dict : Type := list (Z * Q).

Definition keys (d : dict) : list Z := d.*1.

(** [d.get(k)] *)
Fixpoint get (d : dict) (k : Z) : option Q :=
  match d with
  | [] => None
  | (k', v) :: rest => if Z.eqb k' k then Some v else get rest k
  end.

(** [next(x for x in l if p(x))]: the first match, or [None] where Python
    raises [StopIteration]. *)
Fixpoint next_if {A} (p : A -> bool) (l : list A) : option A :=
  match l with
  | [] => None
  | x :: rest => if p x then Some x else next_if p rest
  end.

(** [l[i::k]] for [0 <= i] and [1 <= k]. The counter [c] is the number of
    items to skip before the next one that is taken. *)
Fixpoint slice_step {A} (k c : nat) (l : list A) : list A :=
  match l with
  | [] => []
  | x :: rest =>
      match c with
      | O => x :: slice_step k (k - 1) rest
      | S c' => slice_step k c' rest
      end
  end.

(** The random generator is a tape of raw draws; [randbelow n] reads one
    draw and reduces it below [n]. *)
Definition rng : Type := list nat.

Definition randbelow (n : nat) (r : rng) : nat * rng :=
  match r with
  | [] => (0%nat, [])
  | d :: r' => ((d mod n)%nat, r')
  end.

(** [x[i], x[j] = x[j], x[i]] *)
Definition swap {A} (i j : nat) (l : list A) : list A :=
  match l !! i, l !! j with
  | Some a, Some b => <[j := a]> (<[i := b]> l)
  | _, _ => l
  end.

(** [random.shuffle(x)]:
    [for i in reversed(range(1, len(x))): j = randbelow(i + 1); swap]. *)
Fixpoint shuffle_from {A} (i : nat) (l : list A) (r : rng) : list A * rng :=
  match i with
  | O => (l, r)
  | S i' =>
      let '(j, r') := randbelow (S i) r in
      shuffle_from i' (swap i j l) r'
  end.

Definition shuffle {A} (l : list A) (r : rng) : list A * rng :=
  shuffle_from (length l - 1) l r.

(** [random.choice(seq)] is [seq[randbelow(len(seq))]]; the result is
    [None] where Python raises [IndexError], on an empty sequence. *)
Definition choice {A} (l : list A) (r : rng) : option A * rng :=
  let '(j, r') := randbelow (length l) r in (l !! j, r').

End Py.

(** ** The collaborators of [parse.py] *)

(** What [parse] is given for one input: an annotated [core.Passage], or a
    list of lists of tokens. *)
Inductive Input (Passage : Type) : Type :=
  | InPassage (p : Passage)
  | InTokens (t : list (list string)).
Arguments InPassage {Passage} p.
Arguments InTokens {Passage} t.

(** [isinstance(passage, core.Passage)] *)
Definition is_Passage {Passage} (i : Input Passage) : bool :=
  match i with InPassage _ => true | InTokens _ => false end.

(** The classes and functions imported by [parse.py]. Their code is not
    part of the file under verification: they are parameters. A method that
    mutates its object returns the object's new value next to its result. *)
Class Collab : Type := {
  Action : Type;
  State : Type;
  Oracle : Type;
  Model : Type;
  Features : Type;
  Passage : Type;
  EvalScores : Type;
  Disk : Type;                               (* the model files *)
  (* parsing.action.Action *)
  by_id : Z -> Action;                       (* Action.by_id(i) *)
  action_id : Action -> Z;                   (* action.id *)
  action_eq : Action -> Action -> bool;      (* a == b *)
  is_swap : Action -> bool;                  (* action.is_swap *)
  (* parsing.state.State *)
  State_new : Input Passage -> string -> State;
  is_valid : State -> Action -> bool;
  transition : State -> Action -> outcome unit * State;
  finished : State -> bool;
  state_hash : State -> Z;                   (* hash(state) *)
  create_passage : State -> bool -> outcome Passage;
  (* parsing.oracle.Oracle *)
  Oracle_new : Passage -> Oracle;
  get_actions : Oracle -> State -> outcome (list Action) * Oracle;
  (* parsing.features.FeatureExtractor *)
  extract_features : State -> Features;
  (* parsing.averaged_perceptron.AveragedPerceptron *)
  Model_new : Model;
  score : Model -> Features -> Py.dict;
  update : Model -> Features -> Z -> Z -> Q -> Model;
  average : Model -> Model;
  load : Model -> string -> Disk -> outcome Model;   (* model.load(path) *)
  save : Model -> string -> Disk -> Disk;            (* model.save(path) *)
  (* ucca.evaluation, ucca.core, ucca.convert *)
  evaluate : Input Passage -> Input Passage -> EvalScores;
  average_f1 : list EvalScores -> Q;         (* Scores.aggregate(l).average_f1() *)
  passage_equals : Passage -> Passage -> bool;
  passage_ID : Passage -> string;
  split2segments : Input Passage -> bool -> list (Input Passage)
}.

(** The fields of [Config()] that [parse.py] reads. *)
Record Config : Type := {
  check_loops : bool;
  verify : bool;
  importance : Q;
  cfg_learning_rate : Q;
  cfg_decay_factor : Q;
  split : bool;
  sentences : bool
}.

(** The effects on the outside that the properties below talk about. The
    progress lines (timing, accuracy, totals) are not recorded. *)
Inductive Event : Type :=
  | EvLog (passage_id : string) (e : ParserError)  (* Config().log("%s %s: %s") *)
  | EvPrintFailed                                  (* print("failed") *)
  | EvCreatePassage (assert_proper : bool)         (* state.create_passage(...) *)
  | EvSave (path : string)                         (* best_model.save(path) *)
  | EvWritePassage (passage_id : string).          (* write_passage(...) *)

Section Parser.

Context `{C : Collab}.
Variable cfg : Config.

(** The fields of a [Parser] object, followed by the state of the world
    around it: the random generator, the model files and the events so
    far. [scores] is [[]] where Python has [None]. *)
Record World : Type := {
  state : option State;
  oracle : option Oracle;
  scores : Py.dict;
  action_count : nat;
  correct_count : nat;
  total_actions : nat;
  total_correct : nat;
  model : option Model;
  model_file : option string;
  learning_rate : Q;
  decay_factor : Q;
  random : Py.rng;
  disk : Disk;
  trace : list Event
}.

Definition set_state (x : option State) (w : World) : World :=
  {| state := x; oracle := oracle w; scores := scores w;
     action_count := action_count w; correct_count := correct_count w;
     total_actions := total_actions w; total_correct := total_correct w;
     model := model w; model_file := model_file w;
     learning_rate := learning_rate w; decay_factor := decay_factor w;
     random := random w; disk := disk w; trace := trace w |}.

Definition set_oracle (x : option Oracle) (w : World) : World :=
  {| state := state w; oracle := x; scores := scores w;
     action_count := action_count w; correct_count := correct_count w;
     total_actions := total_actions w; total_correct := total_correct w;
     model := model w; model_file := model_file w;
     learning_rate := learning_rate w; decay_factor := decay_factor w;
     random := random w; disk := disk w; trace := trace w |}.

Definition set_scores (x : Py.dict) (w : World) : World :=
  {| state := state w; oracle := oracle w; scores := x;
     action_count := action_count w; correct_count := correct_count w;
     total_actions := total_actions w; total_correct := total_correct w;
     model := model w; model_file := model_file w;
     learning_rate := learning_rate w; decay_factor := decay_factor w;
     random := random w; disk := disk w; trace := trace w |}.

Definition set_counts (a c : nat) (w : World) : World :=
  {| state := state w; oracle := oracle w; scores := scores w;
     action_count := a; correct_count := c;
     total_actions := total_actions w; total_correct := total_correct w;
     model := model w; model_file := model_file w;
     learning_rate := learning_rate w; decay_factor := decay_factor w;
     random := random w; disk := disk w; trace := trace w |}.

Definition set_totals (a c : nat) (w : World) : World :=
  {| state := state w; oracle := oracle w; scores := scores w;
     action_count := action_count w; correct_count := correct_count w;
     total_actions := a; total_correct := c;
     model := model w; model_file := model_file w;
     learning_rate := learning_rate w; decay_factor := decay_factor w;
     random := random w; disk := disk w; trace := trace w |}.

Definition set_model (x : option Model) (w : World) : World :=
  {| state := state w; oracle := oracle w; scores := scores w;
     action_count := action_count w; correct_count := correct_count w;
     total_actions := total_actions w; total_correct := total_correct w;
     model := x; model_file := model_file w;
     learning_rate := learning_rate w; decay_factor := decay_factor w;
     random := random w; disk := disk w; trace := trace w |}.

Definition set_learning_rate (x : Q) (w : World) : World :=
  {| state := state w; oracle := oracle w; scores := scores w;
     action_count := action_count w; correct_count := correct_count w;
     total_actions := total_actions w; total_correct := total_correct w;
     model := model w; model_file := model_file w;
     learning_rate := x; decay_factor := decay_factor w;
     random := random w; disk := disk w; trace := trace w |}.

Definition set_random (x : Py.rng) (w : World) : World :=
  {| state := state w; oracle := oracle w; scores := scores w;
     action_count := action_count w; correct_count := correct_count w;
     total_actions := total_actions w; total_correct := total_correct w;
     model := model w; model_file := model_file w;
     learning_rate := learning_rate w; decay_factor := decay_factor w;
     random := x; disk := disk w; trace := trace w |}.

Definition set_disk (x : Disk) (w : World) : World :=
  {| state := state w; oracle := oracle w; scores := scores w;
     action_count := action_count w; correct_count := correct_count w;
     total_actions := total_actions w; total_correct := total_correct w;
     model := model w; model_file := model_file w;
     learning_rate := learning_rate w; decay_factor := decay_factor w;
     random := random w; disk := x; trace := trace w |}.

Definition set_trace (x : list Event) (w : World) : World :=
  {| state := state w; oracle := oracle w; scores := scores w;
     action_count := action_count w; correct_count := correct_count w;
     total_actions := total_actions w; total_correct := total_correct w;
     model := model w; model_file := model_file w;
     learning_rate := learning_rate w; decay_factor := decay_factor w;
     random := random w; disk := disk w; trace := x |}.

(** [Parser.__init__(model_file)], in a world with the given random tape
    and model files. *)
Definition Parser_new (file : option string) (r : Py.rng)
    (d : Disk) : World :=
  {| state := None; oracle := None; scores := [];
     action_count := 0; correct_count := 0;
     total_actions := 0; total_correct := 0;
     model := Some Model_new; model_file := file;
     learning_rate := cfg_learning_rate cfg;
     decay_factor := cfg_decay_factor cfg;
     random := r; disk := d; trace := [] |}.

(** *** Computations: state passing with exceptions *)

Definition M (A : Type) : Type := World -> outcome A * World.

Definition ret {A} (a : A) : M A := fun w => (Ret a, w).
Definition raise {A} (e : exn) : M A := fun w => (Raise e, w).
Definition no_fuel {A} : M A := fun w => (NoFuel, w).

Definition bind {A B} (m : M A) (k : A -> M B) : M B :=
  fun w =>
    match m w with
    | (Ret a, w') => k a w'
    | (Raise e, w') => (Raise e, w')
    | (NoFuel, w') => (NoFuel, w')
    end.

(** [try: m  except <the exceptions h is defined on>: h e] *)
Definition try_except {A} (m : M A) (h : exn -> option (M A)) : M A :=
  fun w =>
    match m w with
    | (Raise e, w') =>
        match h e with
        | Some handler => handler w'
        | None => (Raise e, w')
        end
    | r => r
    end.

Definition get {A} (f : World -> A) : M A := fun w => (Ret (f w), w).
Definition modify (f : World -> World) : M unit := fun w => (Ret tt, f w).
Definition emit (e : Event) : M unit :=
  modify (fun w => set_trace (trace w ++ [e]) w).

(** Reading an attribute that holds [None] and using it raises
    [AttributeError]. *)
Definition get_some {A} (f : World -> option A) : M A :=
  fun w => match f w with
           | Some a => (Ret a, w)
           | None => (Raise AttributeError, w)
           end.

(** Lifting a pure computation that may raise. *)
Definition lift {A} (o : outcome A) : M A := fun w => (o, w).

End Parser.

Notation "'let*' x ':=' m 'in' k" := (bind m (fun x => k))
  (at level 10, x name, m at level 200, k at level 200,
   format "'[v' 'let*'  x  :=  m  'in'  '/' k ']'").

(** ** The parser *)

Section Control.

Context `{C : Collab}.
Variable cfg : Config.

(** [Parser.select_action(i, true_actions)]: the true action equal to
    action [i] if there is one, else action [i] itself. *)
Definition select_action (i : Z) (true_actions : list Action) : Action :=
  let action := by_id i in
  match Py.next_if (fun true_action => action_eq action true_action)
          true_actions with
  | Some true_action => true_action
  | None => action
  end.

(** [Parser.predict_action(features, true_actions)] *)
Definition predict_action (features : Features)
    (true_actions : list Action) : M Action :=
  let* m := get_some model in
  let sc := score m features in
  let* _ := modify (set_scores sc) in
  let* best_id := lift (Py.max (Py.get sc) (Py.keys sc)) in
  let best_action := select_action best_id true_actions in
  let* s := get_some state in
  if is_valid s best_action then ret best_action
  else
    let* ascending := lift (Py.sorted (Py.get sc) (Py.keys sc)) in
    let sorted_ids := reverse ascending in
    let actions := (fun i => select_action i true_actions) <$> sorted_ids in
    match Py.next_if (is_valid s) actions with
    | Some action => ret action
    | None => raise (ParserException ErrNoValidActions)
    end.

(** [Parser.check_loop(history, train)]. The set [history] is mutated in
    place: its new value is returned. The message of the assertion is
    computed only when it fails, and in training it reads
    [self.oracle.str]. *)
Definition check_loop (history : gset Z) (train : bool) : M (gset Z) :=
  let* s := get_some state in
  let h := state_hash s in
  if decide (h ∈ history) then
    if train then
      let* _ := get_some oracle in
      raise (AssertionError AssertTransitionLoop)
    else raise (AssertionError AssertTransitionLoop)
  else ret (history ∪ {[h]}).

(** Lines 176-182: the true actions for the current state. Only an
    [AttributeError] or an [AssertionError] of the oracle is handled. *)
Definition oracle_actions (train : bool) : M (list Action) :=
  let* o := get oracle in
  match o with
  | None => ret []
  | Some orc =>
      let* s := get_some state in
      let '(r, orc') := get_actions orc s in
      let* _ := modify (set_oracle (Some orc')) in
      try_except (lift r)
        (fun e =>
           match e with
           | AttributeError | AssertionError _ =>
               Some (if train then raise (ParserException ErrOracleTraining)
                     else ret [])
           | _ => None
           end)
  end.

(** [predicted_action in true_actions] *)
Definition action_in (a : Action) (l : list Action) : bool :=
  existsb (fun x => action_eq x a) l.

(** Lines 192-194: the id of the true action with the best score, the
    first one among equals. *)
Definition best_true_action_id (sc : Py.dict) (true_actions : list Action)
    : outcome Z :=
  match true_actions with
  | [] => Raise ValueError
  | [true_action] => Ret (action_id true_action)
  | _ => Py.max (Py.get sc) (action_id <$> true_actions)
  end.

(** Lines 191-199: the perceptron update after a wrong prediction in
    training, and the action that is applied instead. *)
Definition train_update (features : Features) (predicted_action : Action)
    (true_actions : list Action) : M Action :=
  let* sc := get scores in
  let* best := lift (best_true_action_id sc true_actions) in
  let* lr := get learning_rate in
  let rate := if is_swap (by_id best) then (lr * importance cfg)%Q else lr in
  let* m := get_some model in
  let* _ := modify (set_model
              (Some (update m features (action_id predicted_action) best rate))) in
  let* r := get random in
  let '(a, r') := Py.choice true_actions r in
  let* _ := modify (set_random r') in
  match a with
  | Some action => ret action
  | None => raise IndexError
  end.

(** [self.state.transition(action)], with the handler of lines 201-204. *)
Definition do_transition (action : Action) : M unit :=
  let* s := get_some state in
  let '(r, s') := transition s action in
  let* _ := modify (set_state (Some s')) in
  try_except (lift r)
    (fun e =>
       match e with
       | AssertionError _ =>
           Some (raise (ParserException (ErrInvalidTransition (action_id action))))
       | _ => None
       end).

(** Lines 173-174: the optional loop check at the head of a turn. *)
Definition loop_check (history : option (gset Z)) (train : bool)
    : M (option (gset Z)) :=
  match check_loops cfg, history with
  | true, Some h => let* h' := check_loop h train in ret (Some h')
  | _, _ => ret history
  end.

(** Lines 186-199: the action to apply, given the predicted one. *)
Definition choose_action (train : bool) (features : Features)
    (predicted_action : Action) (true_actions : list Action) : M Action :=
  match true_actions with
  | [] => ret predicted_action
  | _ =>
      if action_in predicted_action true_actions then
        let* _ := modify (fun w =>
                    set_counts (action_count w) (correct_count w + 1) w) in
        ret predicted_action
      else if train then
        train_update features predicted_action true_actions
      else ret predicted_action
  end.

(** Lines 200-215: apply the action; the result is [self.state.finished]. *)
Definition apply_action (action : Action) : M bool :=
  let* _ := modify (fun w =>
              set_counts (action_count w + 1) (correct_count w) w) in
  let* _ := do_transition action in
  let* s' := get_some state in
  ret (finished s').

(** Lines 184-215: the rest of a turn once [true_actions] is known. *)
Definition step_with (train : bool) (true_actions : list Action) : M bool :=
  let* s := get_some state in
  let features := extract_features s in
  let* predicted_action := predict_action features true_actions in
  let* action := choose_action train features predicted_action true_actions in
  apply_action action.

(** One turn of the [while True] loop of [parse_passage]: the history
    after the loop check, and whether the state is finished. *)
Definition parse_step (history : option (gset Z)) (train : bool)
    : M (option (gset Z) * bool) :=
  let* history' := loop_check history train in
  let* true_actions := oracle_actions train in
  let* fin := step_with train true_actions in
  ret (history', fin).

(** [Parser.parse_passage(history, train)] *)
Fixpoint parse_passage (fuel : nat) (history : option (gset Z))
    (train : bool) : M unit :=
  match fuel with
  | O => no_fuel
  | S fuel' =>
      let* turn := parse_step history train in
      if turn.2 then ret tt else parse_passage fuel' turn.1 train
  end.

(** The [mode] argument of [parse]; another string fails its assert. *)
Inductive Mode : Type := Train | Test | Dev.

Definition is_train (mode : Mode) : bool :=
  match mode with Train => true | _ => false end.

(** What [parse] yields: (parsed passage, original passage, passage ID). *)
Definition Triple : Type := Input Passage * Input Passage * string.

(** [Parser.verify_passage(passage, predicted_passage, show_diff)] *)
Definition verify_passage (passage predicted_passage : Input Passage)
    : M unit :=
  match passage, predicted_passage with
  | InPassage p, InPassage q =>
      if passage_equals p q then ret tt
      else raise (AssertionError AssertVerify)
  | _, _ => raise AttributeError
  end.

(** Lines 118-124: the fresh state, history and oracle of one input. *)
Definition prepare (train : bool) (passage : Input Passage)
    (passage_id : string) : M unit :=
  let* _ := modify (set_counts 0 0) in
  let* _ := if train && negb (is_Passage passage)
            then raise (AssertionError AssertUnannotated) else ret tt in
  let* _ := modify (set_state (Some (State_new passage passage_id))) in
  modify (set_oracle
            match passage with
            | InPassage p => Some (Oracle_new p)
            | InTokens _ => None
            end).

(** Lines 125-132: parse the input; the result is [failed]. *)
Definition try_parse_passage (fuel : nat) (train : bool)
    (passage_id : string) : M bool :=
  let history : gset Z := ∅ in
  try_except
    (let* _ := parse_passage fuel (Some history) train in ret false)
    (fun e =>
       match e with
       | ParserException err =>
           Some (if train then raise e
                 else
                   let* _ := emit (EvLog passage_id err) in
                   let* _ := emit EvPrintFailed in
                   ret true)
       | _ => None
       end).

(** Lines 133-151: the passage to yield, the verification and the
    totals. *)
Definition finish_passage (train failed : bool) (passage : Input Passage)
    (passage_id : string) : M Triple :=
  let* predicted_passage :=
    if negb train || verify cfg then
      let* s := get_some state in
      let* _ := emit (EvCreatePassage (verify cfg)) in
      let* created := lift (create_passage s (verify cfg)) in
      ret (InPassage created)
    else ret passage in
  let* _ :=
    if failed then ret tt
    else
      let* o := get oracle in
      match o with
      | Some _ =>
          if verify cfg then verify_passage passage predicted_passage
          else ret tt
      | None => ret tt
      end in
  let* _ := modify (fun w =>
              set_totals (total_actions w + action_count w)
                         (total_correct w + correct_count w) w) in
  ret (predicted_passage, passage, passage_id).

(** The body of the [for] loop of [parse] (lines 116-151) for one input,
    up to the [yield]. *)
Definition parse_one (fuel : nat) (train : bool) (passage : Input Passage)
    (passage_id : string) : M Triple :=
  let* _ := prepare train passage passage_id in
  let* failed := try_parse_passage fuel train passage_id in
  finish_passage train failed passage passage_id.

(** The generator [parse] run by a consumer: [consume] is what the
    consumer does with each yielded triple (the body of its [for] loop, or
    of its list comprehension) before the generator is resumed. *)
Fixpoint parse_loop {Acc} (fuel : nat) (train : bool)
    (passages : list (Input Passage * string))
    (consume : Acc -> Triple -> M Acc) (acc : Acc) : M Acc :=
  match passages with
  | [] => ret acc
  | (passage, passage_id) :: rest =>
      let* triple := parse_one fuel train passage passage_id in
      let* acc' := consume acc triple in
      parse_loop fuel train rest consume acc'
  end.

(** [Parser.parse(passages, mode)] *)
Definition parse {Acc} (fuel : nat) (mode : Mode)
    (passages : list (Input Passage * string))
    (consume : Acc -> Triple -> M Acc) (acc : Acc) : M Acc :=
  let* _ := modify (set_totals 0 0) in
  parse_loop fuel (is_train mode) passages consume acc.

(** [[f(t) for t in self.parse(passages, mode)]] *)
Definition parse_collect {B} (fuel : nat) (mode : Mode)
    (passages : list (Input Passage * string)) (f : Triple -> B)
    : M (list B) :=
  parse fuel mode passages (fun acc t => ret (acc ++ [f t])) [].

(** *** Training *)

(** [self.model.load(path)]: the classifier object takes the value that
    the collaborator reads from the model files. *)
Definition model_load (path : string) : M unit :=
  let* m := get_some model in
  let* d := get disk in
  let* loaded := lift (load m path d) in
  modify (set_model (Some loaded)).

(** [m.save(path)] *)
Definition model_save (m : Model) (path : string) : M unit :=
  let* _ := modify (fun w => set_disk (save m path (disk w)) w) in
  emit (EvSave path).

(** Lines 67-82: parse and score the dev passages, and compare with the
    best score so far. Returns the new values of [dev], [best_score] and
    [save_model]. *)
Definition evaluate_dev (fuel : nat) (dev : list (Input Passage * string))
    (best_score : Q) (save_model : bool)
    : M (list (Input Passage * string) * Q * bool) :=
  match dev with
  | [] => ret (dev, best_score, save_model)
  | _ =>
      let* pairs := parse_collect fuel Dev dev
                      (fun t => ((t.1.2, t.2), evaluate t.1.1 t.1.2)) in
      match pairs with
      | [] => raise ValueError
      | _ =>
          let dev' := pairs.*1 in
          let score := average_f1 (pairs.*2) in
          if Qle_bool best_score score then ret (dev', score, true)
          else ret (dev', best_score, false)
      end
  end.

(** Lines 84-87 *)
Definition retain_model (save_model : bool) (best_model : option Model)
    : M (option Model) :=
  if save_model then
    let* m := get_some model in
    let averaged := average m in
    let* file := get model_file in
    let* _ := match file with
              | Some path => model_save averaged path
              | None => ret tt
              end in
    ret (Some averaged)
  else ret best_model.

(** The values of the local variables [passages], [dev], [best_score],
    [best_model] and [save_model] of [train]. *)
Record TrainVars : Type := {
  tv_passages : list (Input Passage * string);
  tv_dev : list (Input Passage * string);
  tv_best_score : Q;
  tv_best_model : option Model;
  tv_save_model : bool
}.

(** Lines 58-60: the local variables of [train] when its loop starts. *)
Definition train_start (passages dev : list (Input Passage * string))
    : TrainVars :=
  {| tv_passages := passages; tv_dev := dev; tv_best_score := 0%Q;
     tv_best_model := None; tv_save_model := true |}.

(** The body of the [for iteration in range(iterations)] loop of [train]
    (lines 62-89). *)
Definition train_epoch (fuel : nat) (v : TrainVars) : M TrainVars :=
  let* passages1 := parse_collect fuel Train (tv_passages v)
                      (fun t => (t.1.2, t.2)) in
  let* _ := modify (fun w =>
              set_learning_rate (learning_rate w * decay_factor w)%Q w) in
  let* r := get random in
  let shuffled := Py.shuffle passages1 r in
  let* _ := modify (set_random shuffled.2) in
  let* ev := evaluate_dev fuel (tv_dev v) (tv_best_score v) (tv_save_model v) in
  let* best_model' := retain_model ev.2 (tv_best_model v) in
  ret {| tv_passages := shuffled.1; tv_dev := ev.1.1;
         tv_best_score := ev.1.2; tv_best_model := best_model';
         tv_save_model := ev.2 |}.

Fixpoint train_loop (fuel : nat) (iterations : nat) (v : TrainVars)
    : M (option Model) :=
  match iterations with
  | O => ret (tv_best_model v)
  | S iterations' =>
      let* v' := train_epoch fuel v in
      train_loop fuel iterations' v'
  end.

(** [Parser.train(passages, dev, iterations)]. The arguments [passages]
    and [dev] are sequences (lists or tuples, as [main] builds them for
    the folds), so that [not passages] and [dev] test for emptiness;
    [dev=None] is [[]]. *)
Definition train (fuel : nat) (passages dev : list (Input Passage * string))
    (iterations : nat) : M (option Model) :=
  match passages with
  | [] =>
      let* file := get model_file in
      let* _ := match file with
                | Some path => model_load path
                | None => ret tt
                end in
      get model
  | _ =>
      let* best_model :=
        train_loop fuel iterations (train_start passages dev) in
      let* _ := modify (set_model best_model) in
      get model
  end.

(** *** Train, test and cross-validation *)

(** [p = Parser(args.model)]: a new parser object in the same world. *)
Definition Parser_init (file : option string) : M unit :=
  modify (fun w =>
            set_trace (trace w) (Parser_new cfg file (random w) (disk w))).

(** The body of the [for] loop of [train_test] (lines 364-369). The
    guessed passage is never [None] in this version of [parse]. *)
Definition test_consume (passage_scores : list EvalScores) (t : Triple)
    : M (list EvalScores) :=
  let guessed_passage := t.1.1 in
  let ref_passage := t.1.2 in
  let passage_scores' :=
    if is_Passage ref_passage
    then passage_scores ++ [evaluate guessed_passage ref_passage]
    else passage_scores in
  let* _ := match guessed_passage with
            | InPassage g => emit (EvWritePassage (passage_ID g))
            | InTokens _ => raise AttributeError
            end in
  ret passage_scores'.

(** [train_test(train_passages, dev_passages, test_passages, args)]; the
    result is the list of the scores of the test passages, [None] when it
    is empty, in place of their aggregate. *)
Definition train_test (fuel : nat) (model_path : option string)
    (iterations : nat)
    (train_passages dev_passages test_passages : list (Input Passage * string))
    : M (option (list EvalScores)) :=
  let* _ := Parser_init model_path in
  let* _ := train fuel train_passages dev_passages iterations in
  match test_passages with
  | [] => ret None
  | _ =>
      let* passage_scores := parse fuel Test test_passages test_consume [] in
      match passage_scores with
      | [] => ret None
      | _ => ret (Some passage_scores)
      end
  end.

End Control.

(** *** The folds of [main] *)

Section Folds.

Context {A : Type}.

(** [folds = [all_passages[i::k] for i in range(k)]] *)
Definition make_folds (k : nat) (all_passages : list A) : list (list A) :=
  (fun i => Py.slice_step k i all_passages) <$> seq 0 k.

(** The three lists of fold [i] (lines 391-395), as
    (train, dev, test). Each fold is a list object of its own, so the
    identity tests [fold is not dev_passages] and
    [fold is not test_passages] compare positions in [folds]. *)
Definition fold_split (k : nat) (folds : list (list A)) (i : nat)
    : list A * list A * list A :=
  let dev_passages := default [] (folds !! i) in
  let test_passages := default [] (folds !! ((i + 1) mod k)%nat) in
  let train_passages :=
    concat (omap (fun jf : nat * list A =>
                    if bool_decide (jf.1 ≠ i ∧ jf.1 ≠ ((i + 1) mod k)%nat)
                    then Some jf.2 else None)
                 (imap pair folds)) in
  (train_passages, dev_passages, test_passages).

(** The arguments of the [k] calls of [train_test], in order, for the
    passages as they are after [shuffle(all_passages)]. *)
Definition cross_validation_splits (k : nat) (shuffled : list A)
    : list (list A * list A * list A) :=
  fold_split k (make_folds k shuffled) <$> seq 0 k.

End Folds.

Section Main.

Context `{C : Collab}.
Variable cfg : Config.

Fixpoint run_folds (fuel : nat) (model_path : option string)
    (iterations : nat)
    (splits : list (list (Input Passage * string)
                    * list (Input Passage * string)
                    * list (Input Passage * string)))
    : M (list (option (list EvalScores))) :=
  match splits with
  | [] => ret []
  | (train_passages, dev_passages, test_passages) :: rest =>
      let* scores := train_test cfg fuel model_path iterations
                       train_passages dev_passages test_passages in
      let* more := run_folds fuel model_path iterations rest in
      ret (scores :: more)
  end.

(** The branch [args.folds is not None] of [main] (lines 382-396), from
    the list [all_passages] on. *)
Definition main_folds (fuel : nat) (model_path : option string)
    (iterations : nat) (k : nat)
    (all_passages : list (Input Passage * string))
    : M (list (option (list EvalScores))) :=
  if (length all_passages <? k)%nat then raise (AssertionError AssertFolds)
  else
    let* r := get random in
    let shuffled := Py.shuffle all_passages r in
    let* _ := modify (set_random shuffled.2) in
    run_folds fuel model_path iterations
      (cross_validation_splits k shuffled.1).

End Main.

(** ** Reading the passages *)

(** What [read_passage] is given: a [core.Passage], or the path of a file. *)
Inductive Source (Passage : Type) : Type :=
  | SrcPassage (p : Passage)
  | SrcPath (path : string).
Arguments SrcPassage {Passage} p.
Arguments SrcPath {Passage} path.

(** The file system and the library functions that [read_passage] calls. *)
Class Files `{C : Collab} : Type := {
  path_exists : string -> bool;                  (* os.path.exists *)
  file2passage : string -> outcome Passage;      (* ioutil.file2passage *)
  (* os.path.splitext(os.path.basename(path)) *)
  splitext_basename : string -> string * string;
  (* convert.CONVERTERS.get(ext.lstrip(".")), and what
     next(converter(f, passage_id)) gives for the file at a path *)
  converter_for : string -> option (string -> string -> outcome Passage);
  (* open(path): raises when the file cannot be opened *)
  open_file : string -> outcome unit;
  (* f.readlines(): raises when the file cannot be read or decoded *)
  readlines : string -> outcome (list string);
  str_strip : string -> string;                  (* line.strip() *)
  str_split : string -> list string              (* line.split() *)
}.

Section Reading.

Context `{F : Files}.
Variable cfg : Config.

(** Lines 305-308: the maximal runs of non-empty stripped lines, each
    split into its tokens. [current] is the run being read, if any. *)
Fixpoint paragraphs (lines : list string) (current : option (list string))
    : list (list string) :=
  match lines with
  | [] => match current with Some p => [p] | None => [] end
  | line :: rest =>
      if String.eqb line EmptyString then
        match current with
        | Some p => p :: paragraphs rest None
        | None => paragraphs rest None
        end
      else paragraphs rest (Some (default [] current ++ str_split line))
  end.

(** [Parser.read_passage(passage)]. In the handler of [IOError] and
    [ParseError] the file is opened again (line 303) before it is read
    as plain text or given to the converter: an exception of [open], of
    [readlines] or of the converter leaves [read_passage]. *)
Definition read_passage (passage : Source Passage)
    : outcome (Input Passage * string) :=
  match passage with
  | SrcPassage p => Ret (InPassage p, passage_ID p)
  | SrcPath path =>
      if path_exists path then
        let fallback :=
          let '(passage_id, ext) := splitext_basename path in
          let converter := converter_for ext in
          match open_file path with
          | Ret _ =>
              match converter with
              | None =>
                  match readlines path with
                  | Ret lines =>
                      Ret (InTokens (paragraphs (str_strip <$> lines) None),
                           passage_id)
                  | Raise e => Raise e
                  | NoFuel => NoFuel
                  end
              | Some converter =>
                  match converter path passage_id with
                  | Ret p => Ret (InPassage p, passage_id)
                  | Raise e => Raise e
                  | NoFuel => NoFuel
                  end
              end
          | Raise e => Raise e
          | NoFuel => NoFuel
          end in
        match file2passage path with
        | Ret p => Ret (InPassage p, passage_ID p)
        | Raise (IOError _) | Raise ParseError => fallback
        | Raise e => Raise e
        | NoFuel => NoFuel
        end
      else Raise (IOError (String.append "File not found: " path))
  end.

(** The generator [read_passages(files)]: the pairs it yields, and how it
    ends ([Ret tt] when it is exhausted, [Raise e] when the exception [e]
    leaves it after the pairs yielded so far). *)
Fixpoint read_passages (files : list (Source Passage))
    : list (Input Passage * string) * outcome unit :=
  match files with
  | [] => ([], Ret tt)
  | file :: rest =>
      match read_passage file with
      | Ret (passage, i) =>
          let yielded :=
            if split cfg then
              imap (fun (j : nat) segment =>
                      (segment, String.append i (String.append "_" (pretty j))))
                   (split2segments passage (sentences cfg))
            else [(passage, i)] in
          let '(more, ending) := read_passages rest in
          (yielded ++ more, ending)
      | Raise e => ([], Raise e)
      | NoFuel => ([], NoFuel)
      end
  end.

End Reading.


(** ** The other functions of [parse.py] *)

(** The directory functions that [read_files_and_dirs] calls. *)
Class Dirs : Type := {
  isdir : string -> bool;                   (* os.path.isdir *)
  listdir : string -> list string;          (* os.listdir *)
  path_join : string -> string -> string    (* os.path.join *)
}.

Section ReadingDirs.

Context `{F : Files} `{D : Dirs}.
Variable cfg : Config.

(** Lines 341-343 of [read_files_and_dirs]: the files given, followed by
  the entries of the directories given, without the directories. *)
Definition expand_files (files_and_dirs : list string) : list string :=
let files := files_and_dirs in
let files :=
  files ++ concat ((fun d => if isdir d then path_join d <$> listdir d
                             else []) <$> files) in
filter (fun f => isdir f = false) files.

(** [read_files_and_dirs(files_and_dirs)]: the generator [read_passages]
  on the files, or the empty tuple when there is none. *)
Definition read_files_and_dirs (files_and_dirs : list string)
  : list (Input Passage * string) * outcome unit :=
match expand_files files_and_dirs with
| [] => ([], Ret tt)
| files => read_passages cfg (SrcPath <$> files)
end.

End ReadingDirs.

(** The name of the file that [write_passage] writes (lines 348-349);
    [sep] is [os.path.sep]. *)
Definition outfile (outdir sep prefix ID : string) (binary : bool) : string :=
  let suffix := if binary then ".pickle"%string else ".xml"%string in
  String.append (String.append (String.append (String.append outdir sep) prefix)
                   ID) suffix.

Section PosTag.

(** The nodes of a [State], the assignment [node.pos_tag = tag], and
  [nltk.pos_tag]. *)
Variable Node : Type.
Variable set_pos_tag : Node -> string -> Node.
Variable tagger : list string -> list (string * string).

(** [Parser.pos_tag(state)] on [state.tokens] and [state.nodes]; the
  result is the nodes after the assignments. The pairs of the tagger
  are unzipped into two names, [tokens] and [tags]: this raises
  [ValueError] when the tagger returns no pair. *)
Definition pos_tag (state_tokens : list (list string)) (nodes : list Node)
  : outcome (list Node) :=
let tokens := concat state_tokens in
match tagger tokens with
| [] => Raise ValueError
| pairs =>
    let tags := pairs.*2 in
    Ret (zip_with set_pos_tag nodes tags ++ drop (length tags) nodes)
end.

End PosTag.


(** ** Predicates used in the statements *)

Module PySpec.

(** [key x] is a number below (strictly below) the bound [v]. *)
Definition key_le {A} (key : A -> option Q) (v : Q) (x : A) : Prop :=
  exists vx, key x = Some vx /\ (vx <= v)%Q.
Definition key_lt {A} (key : A -> option Q) (v : Q) (x : A) : Prop :=
  exists vx, key x = Some vx /\ (vx < v)%Q.

(** [m] is the first item of [l] with the greatest key. *)
Definition first_max {A} (key : A -> option Q) (l : list A) (m : A) : Prop :=
  exists pre post vm,
    l = pre ++ m :: post /\ key m = Some vm /\
    Forall (key_lt key vm) pre /\ Forall (key_le key vm) post.

(** The keys of [x] and [y] are numbers, and the one of [x] is not
    greater than the one of [y]. *)
Definition keys_le {A} (key : A -> option Q) (x y : A) : Prop :=
  exists vx vy, key x = Some vx /\ key y = Some vy /\ (vx <= vy)%Q.

Definition fst_le {A} (a b : Q * A) : Prop := (a.1 <= b.1)%Q.

End PySpec.

Section LoopSpec.

Context `{C : Collab}.

(** The calls of [check_loop] made for one input, on the states that its
    parse goes through, one per turn of the loop of [parse_passage]. *)
Fixpoint check_loop_run (train : bool) (states : list State)
    (history : gset Z) : M (gset Z) :=
  match states with
  | [] => ret history
  | s :: rest =>
      let* _ := modify (set_state (Some s)) in
      let* history' := check_loop history train in
      check_loop_run train rest history'
  end.

(** The consumer of the list comprehension of line 63. *)
Definition collect_pairs (acc : list (Input Passage * string)) (t : Triple)
    : M (list (Input Passage * string)) :=
  ret (acc ++ [(t.1.2, t.2)]).

End LoopSpec.

Section TraceSpec.

Context `{C : Collab}.

(** The computation records no event. *)
Definition keeps_trace {A} (m : M A) : Prop :=
  forall w, trace (m w).2 = trace w.

End TraceSpec.

Section TrainSpec.

Context `{C : Collab}.

(** The world after [best_model.save(self.model_file)] of line 87, which
    runs when a model file is given. *)
Definition save_to (m : Model) (w : World) : World :=
  match model_file w with
  | Some path =>
      set_trace (trace w ++ [EvSave path])
        (set_disk (save m path (disk w)) w)
  | None => w
  end.

(** The world after lines 65-66: the learning rate has decayed and the
    shuffle has drawn from the random generator. *)
Definition after_decay (passages1 : list (Input Passage * string))
    (w : World) : World :=
  set_random (Py.shuffle passages1 (random w)).2
    (set_learning_rate (learning_rate w * decay_factor w)%Q w).

End TrainSpec.


Section InvariantSpec.

Context `{C : Collab}.

(** [P] holds after [m], however [m] ends, when it holds before. *)
Definition invariant {A} (P : World -> Prop) (m : M A) : Prop :=
forall w, P w -> P (m w).2.

(** When [m] returns from a world that satisfies [P], its result and the
  world it leaves satisfy [Q]. *)
Definition hoare {A} (P : World -> Prop) (m : M A)
  (Q : A -> World -> Prop) : Prop :=
forall w a w', P w -> m w = (Ret a, w') -> Q a w'.

(** Every exception that [m] raises is one of [S]. *)
Definition raises_only {A} (S : exn -> Prop) (m : M A) : Prop :=
forall w e, (m w).1 = Raise e -> S e.







End InvariantSpec.


(** ** A small instance of the collaborators, for concrete runs *)

Module Toy.

(** An action is its id, and a mark on the objects made by the oracle
    (they carry [orig_node]); [==] compares the ids. Action 2 is the
    swap. *)
Record action : Type := { a_id : Z; a_gold : bool }.

(** A passage says how many transitions its parse takes, which action
    ids its states accept, what its oracle answers and whether its
    oracle fails. *)
Record passage : Type := {
  p_steps : nat;
  p_valid : list Z;
  p_gold : list Z;
  p_oracle_fails : bool
}.

Record state : Type := { s_left : nat; s_valid : list Z }.

Definition valid (s : state) (a : action) : bool :=
  existsb (Z.eqb (a_id a)) (s_valid s).

(** Action 1 leaves the state as it is; every other valid action takes
    it one step closer to the end. *)
Definition step (s : state) (a : action) : outcome unit * state :=
  if valid s a then
    if Z.eqb (a_id a) 1 then (Ret tt, s)
    else (Ret tt, {| s_left := s_left s - 1; s_valid := s_valid s |})
  else (Raise (AssertionError AssertCollab), s).

Definition new_state (i : Input passage) (id : string) : state :=
  match i with
  | InPassage p => {| s_left := p_steps p; s_valid := p_valid p |}
  | InTokens t => {| s_left := length t; s_valid := [0%Z] |}
  end.

Definition built (s : state) : passage :=
  {| p_steps := s_left s; p_valid := s_valid s; p_gold := [];
     p_oracle_fails := false |}.

Definition answers (o : passage) (s : state)
    : outcome (list action) * passage :=
  if p_oracle_fails o then (Raise (AssertionError AssertCollab), o)
  else (Ret ((fun i => {| a_id := i; a_gold := true |}) <$> p_gold o), o).

(** The classifier is its table of scores, whatever the features. *)
Definition adjust (m : Py.dict) (predicted true_id : Z) (rate : Q) : Py.dict :=
  (fun kv : Z * Q =>
     (kv.1, if Z.eqb kv.1 true_id then (kv.2 + rate)%Q
            else if Z.eqb kv.1 predicted then (kv.2 - rate)%Q
            else kv.2)) <$> m.

Definition same (x y : Input passage) : Q :=
  match x, y with
  | InPassage p, InPassage q =>
      if Nat.eqb (p_steps p) (p_steps q) then 1%Q else 0%Q
  | _, _ => 0%Q
  end.

Definition collab : Collab := {|
  Action := action;
  State := state;
  Oracle := passage;
  Model := Py.dict;
  Features := unit;
  Passage := passage;
  EvalScores := Q;
  Disk := gmap string Py.dict;
  by_id := fun i => {| a_id := i; a_gold := false |};
  action_id := a_id;
  action_eq := fun a b => Z.eqb (a_id a) (a_id b);
  is_swap := fun a => Z.eqb (a_id a) 2;
  State_new := new_state;
  is_valid := valid;
  transition := step;
  finished := fun s => Nat.eqb (s_left s) 0;
  state_hash := fun s => Z.of_nat (s_left s);
  create_passage := fun s _ => Ret (built s);
  Oracle_new := fun p => p;
  get_actions := answers;
  extract_features := fun _ => tt;
  Model_new := [(0%Z, 3%Q); (1%Z, 1%Q); (2%Z, 2%Q)];
  score := fun m _ => m;
  update := fun m _ predicted true_id rate => adjust m predicted true_id rate;
  average := fun m => m;
  load := fun _ path d =>
    match d !! path with
    | Some saved => Ret saved
    | None => Raise (IOError path)
    end;
  save := fun m path d => <[path := m]> d;
  evaluate := same;
  average_f1 := fun l => default 0%Q (head l);
  passage_equals := fun p q => Nat.eqb (p_steps p) (p_steps q);
  passage_ID := fun _ => "toy";
  split2segments := fun p _ => [p]
|}.

Definition cfg : Config := {|
  check_loops := true;
  verify := false;
  importance := 2%Q;
  cfg_learning_rate := 1%Q;
  cfg_decay_factor := (1 # 2)%Q;
  split := false;
  sentences := false
|}.

(** A parser that has just been created. *)
Definition world0 : @World collab :=
  @Parser_new collab cfg None [] (∅ : gmap string Py.dict).

(** Two transitions by action 0, which the oracle recommends. *)
Definition easy : passage :=
  {| p_steps := 2; p_valid := [0%Z]; p_gold := [0%Z]; p_oracle_fails := false |}.

(** No action is valid. *)
Definition stuck : passage :=
  {| p_steps := 2; p_valid := []; p_gold := [0%Z]; p_oracle_fails := false |}.

(** Only action 1 is valid, and it leaves the state unchanged. *)
Definition looping : passage :=
  {| p_steps := 2; p_valid := [1%Z]; p_gold := [1%Z]; p_oracle_fails := false |}.

(** The oracle recommends actions 1 and 2; the classifier prefers 0. *)
Definition hard : passage :=
  {| p_steps := 1; p_valid := [0%Z; 1%Z; 2%Z]; p_gold := [1%Z; 2%Z];
     p_oracle_fails := false |}.

(** The oracle fails. *)
Definition desync : passage :=
  {| p_steps := 1; p_valid := [0%Z]; p_gold := []; p_oracle_fails := true |}.

(** The files: [a.xml] and [b.xml] hold passages, [notes.txt] is plain
    text, [locked.xml] exists but cannot be opened, [bad.sdp] has an
    extension with a converter, which fails on it, and nothing else
    exists. *)
Definition files : @Files collab := {|
  path_exists := fun path : string =>
    String.eqb path "a.xml" || String.eqb path "b.xml"
    || String.eqb path "notes.txt" || String.eqb path "locked.xml"
    || String.eqb path "bad.sdp";
  file2passage := fun path =>
    if String.eqb path "a.xml" then Ret (easy : @Passage collab)
    else if String.eqb path "b.xml" then Ret (hard : @Passage collab)
    else if String.eqb path "locked.xml"
    then Raise (IOError "Permission denied: locked.xml")
    else Raise ParseError;
  splitext_basename := fun path =>
    if String.eqb path "notes.txt" then ("notes", ".txt")
    else if String.eqb path "bad.sdp" then ("bad", ".sdp")
    else (path, EmptyString);
  converter_for := fun ext =>
    if String.eqb ext ".sdp" then Some (fun _ _ => Raise ValueError)
    else None;
  open_file := fun path =>
    if String.eqb path "locked.xml"
    then Raise (IOError "Permission denied: locked.xml")
    else Ret tt;
  readlines := fun _ => Ret ["one two"; EmptyString; "three"];
  str_strip := fun line => line;
  str_split := fun line =>
    if String.eqb line "one two" then ["one"; "two"] else [line]
|}.

End Toy.

(** ** More of the small instance *)

Module Toy2.



End Toy2.



(** * Properties *)

(** ** The built-ins *)

Module PyFacts.

Import PySpec.

Lemma Qltb_lt (x y : Q) : Py.Qltb x y = true <-> (x < y)%Q.
Proof.
  unfold Py.Qltb. rewrite negb_true_iff. split.
  - intros H. apply Qnot_le_lt. intros Hle.
    apply Qle_bool_iff in Hle. congruence.
  - intros H. destruct (Qle_bool y x) eqn:E; [|done].
    apply Qle_bool_iff in E. by apply Qlt_not_le in H.
Qed.

Lemma Qltb_ge (x y : Q) : Py.Qltb x y = false <-> (y <= x)%Q.
Proof.
  unfold Py.Qltb. rewrite negb_false_iff. apply Qle_bool_iff.
Qed.

Lemma key_lt_le {A} (key : A -> option Q) v x : key_lt key v x -> key_le key v x.
Proof. intros (vx & ? & ?). exists vx. eauto using Qlt_le_weak. Qed.

Lemma key_le_trans {A} (key : A -> option Q) v v' x :
  key_le key v x -> (v <= v')%Q -> key_le key v' x.
Proof. intros (vx & ? & ?) ?. exists vx. eauto using Qle_trans. Qed.

Lemma key_le_lt_trans {A} (key : A -> option Q) v v' x :
  key_le key v x -> (v < v')%Q -> key_lt key v' x.
Proof. intros (vx & ? & ?) ?. exists vx. eauto using Qle_lt_trans. Qed.

Lemma max_from_spec {A} (key : A -> option Q) (l : list A) :
  forall item v m,
    key item = Some v ->
    Py.max_from key item (Some v) l = Ret m ->
    (m = item /\ Forall (key_le key v) l) \/
    (exists pre post vm,
        l = pre ++ m :: post /\ key m = Some vm /\ (v < vm)%Q /\
        Forall (key_lt key vm) pre /\ Forall (key_le key vm) post).
Proof.
  induction l as [|x rest IH]; intros item v m Hitem Hmax; simpl in Hmax.
  - left. split; [congruence | constructor].
  - destruct (key x) as [vx|] eqn:Hx; simpl in Hmax; [|discriminate].
    destruct (Py.Qltb v vx) eqn:Hcmp.
    + apply Qltb_lt in Hcmp.
      destruct (IH x vx m Hx Hmax) as [[-> Hall] | (pre & post & vm & -> & Hm & Hlt & Hpre & Hpost)].
      * right. exists [], rest, vx. repeat split; auto.
      * right. exists (x :: pre), post, vm. repeat split; auto.
        -- eauto using Qlt_trans.
        -- constructor; [|done]. exists vx. auto.
    + apply Qltb_ge in Hcmp.
      destruct (IH item v m Hitem Hmax) as [[-> Hall] | (pre & post & vm & -> & Hm & Hlt & Hpre & Hpost)].
      * left. split; [done|]. constructor; [|done]. exists vx. auto.
      * right. exists (x :: pre), post, vm. repeat split; auto.
        constructor; [|done]. exists vx. eauto using Qle_lt_trans.
Qed.

(** [max] returns the first item with the greatest key. *)
Lemma max_first_max {A} (key : A -> option Q) (l : list A) (m : A) :
  Forall (fun x => is_Some (key x)) l ->
  Py.max key l = Ret m -> first_max key l m.
Proof.
  destruct l as [|item rest]; [discriminate|].
  intros Hall Hmax. simpl in Hmax.
  apply Forall_cons in Hall as [[v Hv] _]. rewrite Hv in Hmax.
  destruct (max_from_spec key rest item v m Hv Hmax)
    as [[-> Hle] | (pre & post & vm & -> & Hm & Hlt & Hpre & Hpost)].
  - exists [], rest, v. repeat split; auto.
  - exists (item :: pre), post, vm. repeat split; auto.
    constructor; [|done]. exists v. auto.
Qed.

Lemma max_from_total {A} (key : A -> option Q) (l : list A) :
  forall item v,
    Forall (fun x => is_Some (key x)) l ->
    exists m, Py.max_from key item (Some v) l = Ret m.
Proof.
  induction l as [|x rest IH]; intros item v Hall; simpl; [eauto|].
  apply Forall_cons in Hall as [[vx Hx] Hrest]. rewrite Hx. simpl.
  destruct (Py.Qltb v vx); eauto.
Qed.

(** On a non-empty list whose keys are all numbers, [max] returns. *)
Lemma max_total {A} (key : A -> option Q) (l : list A) :
  l <> [] -> Forall (fun x => is_Some (key x)) l ->
  exists m, Py.max key l = Ret m.
Proof.
  destruct l as [|item rest]; [done|]. intros _ Hall. simpl.
  pose proof Hall as Hall'.
  apply Forall_cons in Hall' as [[v Hv] Hrest]. rewrite Hv.
  by apply max_from_total.
Qed.

Lemma first_max_elem {A} (key : A -> option Q) (l : list A) (m : A) :
  first_max key l m -> m ∈ l.
Proof. intros (pre & post & vm & -> & _). set_solver. Qed.

Lemma first_max_upper {A} (key : A -> option Q) (l : list A) (m : A) :
  first_max key l m ->
  exists vm, key m = Some vm /\ forall x, x ∈ l -> key_le key vm x.
Proof.
  intros (pre & post & vm & -> & Hm & Hpre & Hpost). exists vm. split; [done|].
  intros x Hx. rewrite elem_of_app, elem_of_cons in Hx.
  rewrite Forall_forall in Hpre, Hpost.
  destruct Hx as [Hx | [-> | Hx]].
  - apply key_lt_le; auto.
  - exists vm. split; [done | apply Qle_refl].
  - auto.
Qed.

(** *** [sorted] *)

Lemma insert_stable_perm {A} (x : Q * A) (l : list (Q * A)) :
  Py.insert_stable x l ≡ₚ x :: l.
Proof.
  induction l as [|y t IH]; simpl; [done|].
  destruct (Py.Qltb x.1 y.1); [done|].
  rewrite IH. apply Permutation_swap.
Qed.

Lemma insert_stable_sorted {A} (x : Q * A) (l : list (Q * A)) :
  StronglySorted fst_le l -> StronglySorted fst_le (Py.insert_stable x l).
Proof.
  induction l as [|y t IH]; simpl; intros Hs.
  - repeat constructor.
  - apply StronglySorted_cons in Hs as [Hall Ht].
    destruct (Py.Qltb x.1 y.1) eqn:Hcmp.
    + apply Qltb_lt in Hcmp. apply Qlt_le_weak in Hcmp.
      apply SSorted_cons; [by apply SSorted_cons|].
      constructor; [done|].
      eapply Forall_impl; [exact Hall|].
      intros z Hz. unfold fst_le in *. eauto using Qle_trans.
    + apply Qltb_ge in Hcmp.
      apply SSorted_cons; [auto|].
      rewrite insert_stable_perm. by constructor.
Qed.

Lemma stable_sort_from {A} (l acc : list (Q * A)) :
  StronglySorted fst_le acc ->
  let r := fold_left (fun acc x => Py.insert_stable x acc) l acc in
  r ≡ₚ l ++ acc /\ StronglySorted fst_le r.
Proof.
  revert acc. induction l as [|x t IH]; simpl; intros acc Hacc; [done|].
  destruct (IH (Py.insert_stable x acc)) as [Hp Hs].
  { by apply insert_stable_sorted. }
  split; [|done]. rewrite Hp, insert_stable_perm.
  by rewrite Permutation_middle.
Qed.

Lemma stable_sort_spec {A} (l : list (Q * A)) :
  Py.stable_sort l ≡ₚ l /\ StronglySorted fst_le (Py.stable_sort l).
Proof.
  destruct (stable_sort_from l []) as [Hp Hs]; [constructor|].
  rewrite app_nil_r in Hp. done.
Qed.

Lemma decorate_spec {A} (key : A -> option Q) (l : list A) :
  Forall (fun x => is_Some (key x)) l ->
  exists d, Py.decorate key l = Some d /\ d.*2 = l /\
            Forall (fun p => key p.2 = Some p.1) d.
Proof.
  unfold Py.decorate. induction l as [|x t IH]; intros Hall.
  - exists []. done.
  - apply Forall_cons in Hall as [[v Hv] Ht].
    destruct (IH Ht) as (d & Hd & Hsnd & Hkeys).
    exists ((v, x) :: d). cbn. rewrite Hv. cbn. rewrite Hd. cbn.
    repeat split; [by rewrite Hsnd | by constructor].
Qed.

(** On items whose keys are all numbers, [sorted] returns a permutation
    of its argument that is ascending in the key. *)
Lemma sorted_spec {A} (key : A -> option Q) (l : list A) :
  Forall (fun x => is_Some (key x)) l ->
  exists l', Py.sorted key l = Ret l' /\ l' ≡ₚ l /\
             StronglySorted (keys_le key) l'.
Proof.
  intros Hall.
  destruct (decorate_spec key l Hall) as (d & Hd & Hsnd & Hkeys).
  destruct (stable_sort_spec d) as [Hp Hs].
  assert (Hgoal : (Py.stable_sort d).*2 ≡ₚ l /\
                  StronglySorted (keys_le key) ((Py.stable_sort d).*2)).
  { split; [by rewrite Hp, Hsnd|].
    assert (Hk : Forall (fun p => key p.2 = Some p.1) (Py.stable_sort d))
      by (by rewrite Hp).
    clear -Hs Hk. induction Hs as [|a t Hs IH Ha]; cbn; [constructor|].
    apply Forall_cons in Hk as [Hka Hkt].
    apply SSorted_cons; [auto|].
    rewrite Forall_fmap, Forall_forall. intros b Hb. cbn.
    rewrite Forall_forall in Ha, Hkt.
    exists a.1, b.1. repeat split; auto. by apply Ha. }
  destruct l as [|x [|y t]].
  - exists []. repeat split; constructor.
  - exists [x]. repeat split; [done|]. repeat constructor.
  - exists ((Py.stable_sort d).*2). unfold Py.sorted. rewrite Hd.
    destruct Hgoal. done.
Qed.

Lemma StronglySorted_reverse {A} (R : relation A) (l : list A) :
  StronglySorted R l -> StronglySorted (flip R) (reverse l).
Proof.
  induction 1 as [|a t Hs IH Ha]; [constructor|].
  rewrite reverse_cons. apply StronglySorted_app_2; [|done|repeat constructor].
  intros x1 x2 Hx1 Hx2. apply list_elem_of_singleton in Hx2 as ->.
  rewrite elem_of_reverse in Hx1. rewrite Forall_forall in Ha.
  by apply Ha.
Qed.

Lemma get_keys (d : Py.dict) :
  Forall (fun k => is_Some (Py.get d k)) (Py.keys d).
Proof.
  rewrite Forall_forall. intros k.
  induction d as [|[k' v] rest IH]; cbn; [by rewrite elem_of_nil|].
  rewrite elem_of_cons. intros [-> | Hin].
  - rewrite Z.eqb_refl. eauto.
  - destruct (Z.eqb k' k); eauto.
Qed.

Lemma next_if_None {A} (p : A -> bool) (l : list A) :
  Py.next_if p l = None <-> Forall (fun x => p x = false) l.
Proof.
  induction l as [|x t IH]; simpl.
  - split; [constructor | done].
  - destruct (p x) eqn:E.
    + split; [done|]. intros H. apply Forall_cons in H as [? _]. congruence.
    + rewrite IH. split; [by constructor|].
      intros H. by apply Forall_cons in H as [_ ?].
Qed.

(** [next_if] returns the first item that satisfies the test. *)
Lemma next_if_Some {A} (p : A -> bool) (l : list A) (x : A) :
  Py.next_if p l = Some x <->
  exists pre post, l = pre ++ x :: post /\ p x = true /\
                   Forall (fun y => p y = false) pre.
Proof.
  induction l as [|y t IH]; simpl.
  - split; [done|]. intros (pre & post & H & _). by destruct pre.
  - destruct (p y) eqn:E.
    + split.
      * intros [= ->]. exists [], t. done.
      * intros (pre & post & H & Hx & Hpre). destruct pre as [|z pre].
        -- by injection H as -> _.
        -- injection H as -> _. apply Forall_cons in Hpre as [? _]. congruence.
    + rewrite IH. split.
      * intros (pre & post & -> & Hx & Hpre). exists (y :: pre), post.
        repeat split; [done|]. by constructor.
      * intros (pre & post & H & Hx & Hpre). destruct pre as [|z pre].
        -- injection H as -> _. congruence.
        -- injection H as -> ->. apply Forall_cons in Hpre as [_ ?]. eauto.
Qed.

End PyFacts.


(** ** [predict_action] *)

Section PredictFacts.

Context `{C : Collab}.
Import PySpec.

Lemma predict_action_run (w : World) (m : Model) (s : State)
    (features : Features) (true_actions : list Action) (best : Z)
    (ascending : list Z) :
  model w = Some m -> state w = Some s ->
  Py.max (Py.get (score m features)) (Py.keys (score m features)) = Ret best ->
  Py.sorted (Py.get (score m features)) (Py.keys (score m features))
    = Ret ascending ->
  predict_action features true_actions w =
    (if is_valid s (select_action best true_actions)
     then Ret (select_action best true_actions)
     else match Py.next_if (is_valid s)
                  ((fun i => select_action i true_actions)
                     <$> reverse ascending) with
          | Some action => Ret action
          | None => Raise (ParserException ErrNoValidActions)
          end,
     set_scores (score m features) w).
Proof.
  intros Hm Hs Hmax Hsorted.
  unfold predict_action, bind, get_some, modify, lift, ret, raise.
  rewrite Hm, Hmax. cbn. rewrite Hs.
  destruct (is_valid s (select_action best true_actions)); [done|].
  rewrite Hsorted.
  by destruct (Py.next_if _ _).
Qed.

(** C1. [predict_action] returns the action of the id with the greatest
    score when that action is valid; otherwise the first valid action in
    the ids taken in descending order of score; and it raises
    [ParserException] ("No valid actions available") when no id gives a
    valid action. The action of an id is [select_action]'s: the true
    action equal to it when there is one. In all cases [self.scores]
    holds the scores. *)
Theorem predict_action_spec (w : World) (m : Model) (s : State)
    (features : Features) (true_actions : list Action) :
  model w = Some m -> state w = Some s -> score m features <> [] ->
  let sc := score m features in
  let ids := Py.keys sc in
  let act := fun i => select_action i true_actions in
  let w' := set_scores sc w in
  exists (best : Z) (sorted_ids : list Z),
    (best ∈ ids /\ forall i, i ∈ ids -> keys_le (Py.get sc) i best) /\
    (sorted_ids ≡ₚ ids /\
     StronglySorted (flip (keys_le (Py.get sc))) sorted_ids) /\
    (is_valid s (act best) = true ->
     predict_action features true_actions w = (Ret (act best), w')) /\
    (is_valid s (act best) = false ->
     forall pre i post,
       sorted_ids = pre ++ i :: post ->
       Forall (fun j => is_valid s (act j) = false) pre ->
       is_valid s (act i) = true ->
       predict_action features true_actions w = (Ret (act i), w')) /\
    ((forall i, i ∈ ids -> is_valid s (act i) = false) ->
     predict_action features true_actions w
       = (Raise (ParserException ErrNoValidActions), w')).
Proof.
  intros Hm Hs Hne sc ids act w'.
  assert (Hids : ids <> []).
  { subst ids sc. unfold Py.keys. destruct (score m features); done. }
  pose proof (PyFacts.get_keys sc) as Hkeys.
  destruct (PyFacts.max_total (Py.get sc) ids Hids Hkeys) as [best Hbest].
  pose proof (PyFacts.max_first_max _ _ _ Hkeys Hbest) as Hfm.
  destruct (PyFacts.sorted_spec (Py.get sc) ids Hkeys)
    as (ascending & Hsorted & Hperm & Hss).
  pose proof (predict_action_run w m s features true_actions best ascending
                Hm Hs Hbest Hsorted) as Hrun.
  fold sc in Hrun. subst w'.
  set (act' := fun i => select_action i true_actions) in Hrun.
  change (select_action best true_actions) with (act' best) in Hrun.
  subst act. fold act'.
  exists best, (reverse ascending). repeat split.
  - by eapply PyFacts.first_max_elem.
  - intros i Hi.
    destruct (PyFacts.first_max_upper _ _ _ Hfm) as (vm & Hvm & Hup).
    destruct (Hup i Hi) as (vi & Hvi & Hle). by exists vi, vm.
  - by rewrite reverse_Permutation.
  - by apply PyFacts.StronglySorted_reverse.
  - intros Hv. by rewrite Hrun, Hv.
  - intros Hv pre i post Hsplit Hpre Hi. rewrite Hrun, Hv.
    assert (Hnext : Py.next_if (is_valid s) (act' <$> reverse ascending)
                    = Some (act' i)).
    { apply PyFacts.next_if_Some. exists (act' <$> pre), (act' <$> post).
      rewrite Hsplit, fmap_app, fmap_cons. repeat split; [done|].
      by rewrite Forall_fmap. }
    by rewrite Hnext.
  - intros Hnone. rewrite Hrun.
    assert (Hb : is_valid s (act' best) = false).
    { apply Hnone. by eapply PyFacts.first_max_elem. }
    rewrite Hb.
    assert (Hnext : Py.next_if (is_valid s) (act' <$> reverse ascending) = None).
    { apply PyFacts.next_if_None. rewrite Forall_fmap, Forall_forall.
      intros i Hi. apply Hnone. rewrite elem_of_reverse in Hi.
      by rewrite <- Hperm. }
    by rewrite Hnext.
Qed.

End PredictFacts.

(** The hypotheses of C1 hold in the small instance, for a state that
    rejects the best-scored action 0. *)
Lemma predict_action_spec_witness :
  let s : @State Toy.collab := {| Toy.s_left := 2; Toy.s_valid := [1%Z; 2%Z] |} in
  let w := set_state (Some s) Toy.world0 in
  let m := @Model_new Toy.collab in
  let sc := @score Toy.collab m tt in
  let ids := Py.keys sc in
  let act := fun i => @select_action Toy.collab i [] in
  let w' := set_scores sc w in
  (model w = Some m /\ state w = Some s /\ sc <> []) /\
  exists (best : Z) (sorted_ids : list Z),
    (best ∈ ids /\ forall i, i ∈ ids -> PySpec.keys_le (Py.get sc) i best) /\
    (sorted_ids ≡ₚ ids /\
     StronglySorted (flip (PySpec.keys_le (Py.get sc))) sorted_ids) /\
    (@is_valid Toy.collab s (act best) = true ->
     @predict_action Toy.collab tt [] w = (Ret (act best), w')) /\
    (@is_valid Toy.collab s (act best) = false ->
     forall pre i post,
       sorted_ids = pre ++ i :: post ->
       Forall (fun j => @is_valid Toy.collab s (act j) = false) pre ->
       @is_valid Toy.collab s (act i) = true ->
       @predict_action Toy.collab tt [] w = (Ret (act i), w')) /\
    ((forall i, i ∈ ids -> @is_valid Toy.collab s (act i) = false) ->
     @predict_action Toy.collab tt [] w = (Raise (ParserException ErrNoValidActions), w')).
Proof.
  intros s w m sc ids act w'.
  split; [repeat split; discriminate|].
  apply (@predict_action_spec Toy.collab w m s tt []);
    [reflexivity | reflexivity | discriminate].
Defined.


(** ** One turn of [parse_passage] *)

Section StepFacts.

Context `{C : Collab}.
Variable cfg : Config.
Import PySpec.

Lemma randbelow_lt (n : nat) (r : Py.rng) :
  (0 < n)%nat -> ((Py.randbelow n r).1 < n)%nat.
Proof.
  intros Hn. destruct r as [|d r]; simpl; [done|].
  apply Nat.mod_upper_bound. lia.
Qed.

(** Every position of the sequence is the result of some draw. *)
Lemma choice_draw {A} (l : list A) (i : nat) (a : A) (r : Py.rng) :
  l !! i = Some a -> Py.choice l (i :: r) = (Some a, r).
Proof.
  intros Hi. unfold Py.choice. simpl.
  rewrite Nat.mod_small; [by rewrite Hi|].
  by eapply lookup_lt_Some.
Qed.

Lemma best_true_action_id_spec (sc : Py.dict) (true_actions : list Action) :
  true_actions <> [] ->
  Forall (fun a => is_Some (Py.get sc (action_id a))) true_actions ->
  exists best, best_true_action_id sc true_actions = Ret best /\
               first_max (Py.get sc) (action_id <$> true_actions) best.
Proof.
  intros Hne Hall.
  assert (Hids : Forall (fun i => is_Some (Py.get sc i))
                   (action_id <$> true_actions))
    by (by rewrite Forall_fmap).
  destruct true_actions as [|a [|b t]]; [done| |].
  - exists (action_id a). split; [done|].
    apply Forall_cons in Hall as [[v Hv] _].
    exists [], [], v. repeat split; auto.
  - destruct (PyFacts.max_total (Py.get sc)
                (action_id <$> a :: b :: t)) as [best Hbest]; [done|done|].
    exists best. split; [done|].
    by apply PyFacts.max_first_max.
Qed.

(** C2. In training, when the oracle gives true actions and the
    predicted action is not one of them, the turn: takes as best true
    action the first one with the greatest score; updates the classifier
    from the predicted id to that id with the learning rate, multiplied
    by the importance exactly when the best true action is a swap; and
    applies the true action at the position drawn by the random
    generator below the number of true actions, not the predicted one. *)
Theorem train_step_spec (history history' : option (gset Z))
    (w w0 w1 w2 : World) (s : State) (m : Model)
    (true_actions : list Action) (predicted : Action) :
  loop_check cfg history true w = (Ret history', w0) ->
  oracle_actions true w0 = (Ret true_actions, w1) ->
  state w1 = Some s ->
  predict_action (extract_features s) true_actions w1 = (Ret predicted, w2) ->
  true_actions <> [] ->
  action_in predicted true_actions = false ->
  model w2 = Some m ->
  Forall (fun a => is_Some (Py.get (scores w2) (action_id a))) true_actions ->
  exists (best : Z) (chosen : Action),
    first_max (Py.get (scores w2)) (action_id <$> true_actions) best /\
    true_actions !! (Py.randbelow (length true_actions) (random w2)).1
      = Some chosen /\
    (forall i rest, random w2 = i :: rest ->
       true_actions !! (i mod length true_actions)%nat = Some chosen) /\
    let rate := if is_swap (by_id best)
                then (learning_rate w2 * importance cfg)%Q
                else learning_rate w2 in
    let w3 := set_random
                (Py.randbelow (length true_actions) (random w2)).2
                (set_model
                   (Some (update m (extract_features s)
                            (action_id predicted) best rate)) w2) in
    parse_step cfg history true w
      = (let* fin := apply_action chosen in ret (history', fin)) w3.
Proof.
  intros Hcheck Horacle Hs Hpred Hne Hnotin Hm Hscores.
  destruct (best_true_action_id_spec (scores w2) true_actions Hne Hscores)
    as (best & Hbest & Hfirst).
  assert (Hlen : (0 < length true_actions)%nat).
  { destruct true_actions; [done | simpl; lia]. }
  pose proof (randbelow_lt (length true_actions) (random w2) Hlen) as Hlt.
  destruct (lookup_lt_is_Some_2 true_actions _ Hlt) as [chosen Hchosen].
  exists best, chosen. repeat split; [done | done | |].
  - intros i rest Hr. rewrite Hr in Hchosen. exact Hchosen.
  - cbn zeta.
    unfold parse_step, bind. rewrite Hcheck, Horacle.
    unfold step_with, bind, get_some. rewrite Hs, Hpred.
    unfold choose_action.
    destruct true_actions as [|a t] eqn:Hta; [done|]. rewrite <- Hta in *.
    rewrite Hnotin.
    unfold train_update, bind, get, lift, get_some, modify. rewrite Hbest, Hm.
    cbn [random set_model]. unfold Py.choice.
    destruct (Py.randbelow (length true_actions) (random w2)) as [j r'] eqn:Hj.
    cbn [fst snd] in *. rewrite Hchosen. reflexivity.
Qed.

End StepFacts.

(** The hypotheses of C2 hold in the small instance: the oracle of
    [Toy.hard] recommends actions 1 and 2, the classifier predicts 0. *)
Lemma train_step_spec_witness :
  let w := (@prepare Toy.collab true (InPassage Toy.hard) "h" Toy.world0).2 in
  let s : @State Toy.collab := {| Toy.s_left := 1; Toy.s_valid := [0%Z; 1%Z; 2%Z] |} in
  let m : @Model Toy.collab := @Model_new Toy.collab in
  let true_actions : list (@Action Toy.collab) :=
    [{| Toy.a_id := 1; Toy.a_gold := true |};
     {| Toy.a_id := 2; Toy.a_gold := true |}] in
  let predicted : @Action Toy.collab := {| Toy.a_id := 0; Toy.a_gold := false |} in
  let history : option (gset Z) := Some ∅ in
  let history' : option (gset Z) := Some (∅ ∪ {[1%Z]}) in
  let w2 := set_scores m w in
  (loop_check Toy.cfg history true w = (Ret history', w) /\
   oracle_actions true w = (Ret true_actions, w) /\
   state w = Some s /\
   predict_action (extract_features s) true_actions w = (Ret predicted, w2) /\
   true_actions <> [] /\
   action_in predicted true_actions = false /\
   model w2 = Some m /\
   Forall (fun a => is_Some (Py.get (scores w2) (action_id a))) true_actions) /\
  exists (best : Z) (chosen : @Action Toy.collab),
    PySpec.first_max (Py.get (scores w2)) (action_id <$> true_actions) best /\
    true_actions !! (Py.randbelow (length true_actions) (random w2)).1
      = Some chosen /\
    (forall i rest, random w2 = i :: rest ->
       true_actions !! (i mod length true_actions)%nat = Some chosen) /\
    let rate := if @is_swap Toy.collab (by_id best)
                then (learning_rate w2 * importance Toy.cfg)%Q
                else learning_rate w2 in
    let w3 := set_random
                (Py.randbelow (length true_actions) (random w2)).2
                (set_model
                   (Some (update m (extract_features s)
                            (action_id predicted) best rate)) w2) in
    parse_step Toy.cfg history true w
      = (let* fin := apply_action chosen in ret (history', fin)) w3.
Proof.
  intros w s m true_actions predicted history history' w2.
  assert (Hscores : Forall (fun a => is_Some (Py.get (scores w2) (action_id a)))
                      true_actions).
  { repeat constructor; by eexists. }
  split.
  - repeat split; try reflexivity; [discriminate | exact Hscores].
  - apply (@train_step_spec Toy.collab Toy.cfg history history' w w w w2 s m
             true_actions predicted);
      [reflexivity | reflexivity | reflexivity | reflexivity | discriminate
      | reflexivity | reflexivity | exact Hscores].
Defined.


(** ** Loop detection *)

Section LoopFacts.

Context `{C : Collab}.
Variable cfg : Config.

Lemma check_loop_fresh (history : gset Z) (train : bool) (w : World)
    (s : State) :
  state w = Some s -> state_hash s ∉ history ->
  check_loop history train w = (Ret (history ∪ {[state_hash s]}), w).
Proof.
  intros Hs Hfresh. unfold check_loop, bind, get_some. rewrite Hs.
  by rewrite decide_False.
Qed.

Lemma check_loop_seen (history : gset Z) (train : bool) (w : World)
    (s : State) :
  state w = Some s -> (train = true -> is_Some (oracle w)) ->
  state_hash s ∈ history ->
  check_loop history train w = (Raise (AssertionError AssertTransitionLoop), w).
Proof.
  intros Hs Horacle Hseen. unfold check_loop, bind, get_some. rewrite Hs.
  rewrite decide_True by done.
  destruct train; [|done].
  destruct (Horacle eq_refl) as [o Ho]. by rewrite Ho.
Qed.

Lemma check_loop_run_distinct (train : bool) (states : list State) :
  forall (history : gset Z) (w : World),
    NoDup (state_hash <$> states) ->
    (forall s, s ∈ states -> state_hash s ∉ history) ->
    exists w',
      check_loop_run train states history w
        = (Ret (history ∪ list_to_set (state_hash <$> states)), w').
Proof.
  induction states as [|s rest IH]; intros history w Hnd Hfresh.
  - exists w. cbn. unfold ret. f_equal. f_equal. set_solver.
  - cbn in Hnd. apply NoDup_cons in Hnd as [Hs Hrest].
    cbn [check_loop_run]. unfold bind at 1. unfold modify at 1.
    unfold bind at 1.
    rewrite (check_loop_fresh history train _ s); [|done|].
    2: { apply Hfresh. set_solver. }
    destruct (IH (history ∪ {[state_hash s]}) (set_state (Some s) w) Hrest)
      as [w' Hw'].
    { intros s' Hs'. rewrite elem_of_union, elem_of_singleton.
      intros [Hin | Heq].
      - by apply (Hfresh s'); [set_solver|].
      - apply Hs. rewrite <- Heq. by apply list_elem_of_fmap_2. }
    exists w'. rewrite Hw'. f_equal. f_equal. cbn. set_solver.
Qed.

(** C6. [check_loop] tests the hash of the state against the history and
    only then adds it. With loop checking on, a turn of [parse_passage]
    that succeeds has added the hash of its state, which was new, and a
    turn on a state whose hash is in the history raises the assertion.
    Over the states of one input, starting from the empty history:
    pairwise distinct hashes never raise; and the assertion fails at the
    first state whose hash has occurred before, that is on the second
    occurrence of that hash, whatever follows. *)
Theorem check_loop_second_occurrence (train : bool) (w : World) :
  (train = true -> is_Some (oracle w)) ->
  (forall (history : gset Z) (s : State),
      state w = Some s ->
      check_loop history train w
        = if decide (state_hash s ∈ history)
          then (Raise (AssertionError AssertTransitionLoop), w)
          else (Ret (history ∪ {[state_hash s]}), w)) /\
  (forall (history : gset Z) (s : State),
      check_loops cfg = true -> state w = Some s ->
      (forall h' fin w',
          parse_step cfg (Some history) train w = (Ret (h', fin), w') ->
          state_hash s ∉ history /\
          h' = Some (history ∪ {[state_hash s]})) /\
      (state_hash s ∈ history ->
       forall fuel,
         parse_passage cfg (S fuel) (Some history) train w
           = (Raise (AssertionError AssertTransitionLoop), w))) /\
  (forall states,
      NoDup (state_hash <$> states) ->
      exists w',
        check_loop_run train states ∅ w
          = (Ret (list_to_set (state_hash <$> states)), w')) /\
  (forall pre s post,
      NoDup (state_hash <$> pre) ->
      state_hash s ∈ state_hash <$> pre ->
      exists w',
        check_loop_run train (pre ++ s :: post) ∅ w
          = (Raise (AssertionError AssertTransitionLoop), w') /\
        state w' = Some s).
Proof.
  intros Horacle. split; [|split; [|split]].
  - intros history s Hs. case_decide.
    + by apply (check_loop_seen _ _ _ s).
    + by apply (check_loop_fresh _ _ _ s).
  - intros history s Hcfg Hs. split.
    + intros h' fin w' Hstep.
      unfold parse_step, bind at 1, loop_check in Hstep.
      rewrite Hcfg in Hstep. unfold bind at 1 in Hstep.
      destruct (decide (state_hash s ∈ history)) as [Hin | Hout].
      * rewrite (check_loop_seen history train w s Hs Horacle Hin) in Hstep.
        discriminate.
      * rewrite (check_loop_fresh history train w s Hs Hout) in Hstep.
        unfold ret at 1, bind at 1 in Hstep.
        destruct (oracle_actions train w) as [[ta| |] wa]; [|done|done].
        unfold bind at 1 in Hstep.
        destruct (step_with cfg train ta wa) as [[fin'| |] wb]; [|done|done].
        by injection Hstep as <- _ _.
    + intros Hin fuel. cbn [parse_passage].
      unfold bind at 1, parse_step, bind at 1, loop_check.
      rewrite Hcfg. unfold bind at 1.
      by rewrite (check_loop_seen history train w s Hs Horacle Hin).
  - intros states Hnd.
    destruct (check_loop_run_distinct train states ∅ w Hnd) as [w' Hw'].
    { set_solver. }
    exists w'. rewrite Hw'. f_equal. f_equal. set_solver.
  - intros pre s post Hnd Hseen.
    assert (Hgen : forall (history : gset Z) (w0 : World),
               oracle w0 = oracle w ->
               (forall s', s' ∈ pre -> state_hash s' ∉ history) ->
               state_hash s ∈ history ∨ state_hash s ∈ state_hash <$> pre ->
               exists w',
                 check_loop_run train (pre ++ s :: post) history w0
                   = (Raise (AssertionError AssertTransitionLoop), w') /\
                 state w' = Some s).
    { clear Hseen. induction pre as [|p pre IH]; intros history w0 Ho Hfresh Hin.
      - destruct Hin as [Hin | Hin]; [|by apply elem_of_nil in Hin].
        exists (set_state (Some s) w0). cbn [app check_loop_run].
        unfold bind at 1. unfold modify at 1. unfold bind at 1.
        rewrite (check_loop_seen history train _ s); [done|done| |done].
        intros Ht. cbn. rewrite Ho. auto.
      - cbn in Hnd. apply NoDup_cons in Hnd as [Hp Hpre].
        cbn [app check_loop_run].
        unfold bind at 1. unfold modify at 1. unfold bind at 1.
        rewrite (check_loop_fresh history train _ p); [|done|].
        2: { apply Hfresh. set_solver. }
        apply IH; [done|done| |].
        + intros s' Hs'. rewrite elem_of_union, elem_of_singleton.
          intros [Hin' | Heq].
          * by apply (Hfresh s'); [set_solver|].
          * apply Hp. rewrite <- Heq. by apply list_elem_of_fmap_2.
        + destruct Hin as [Hin | Hin]; [left; set_solver|].
          cbn in Hin. apply elem_of_cons in Hin as [-> | Hin].
          * left. set_solver.
          * by right. }
    apply Hgen; [done | set_solver | by right].
Qed.

End LoopFacts.

(** The hypotheses of C6 hold in the small instance: the hashes 2, 1 are
    distinct, and the hash 2 comes back after them. *)
Lemma check_loop_second_occurrence_witness :
  let a : @State Toy.collab := {| Toy.s_left := 2; Toy.s_valid := [] |} in
  let b : @State Toy.collab := {| Toy.s_left := 1; Toy.s_valid := [] |} in
  let w := Toy.world0 in
  let wa := set_state (Some a) w in
  let seen : gset Z := {[2%Z]} in
  (NoDup (state_hash <$> [a; b]) /\ state_hash a ∈ state_hash <$> [a; b] /\
   check_loops Toy.cfg = true /\ state wa = Some a /\ state_hash a ∈ seen) /\
  (exists w',
      check_loop_run false [a; b] ∅ w
        = (Ret (list_to_set (state_hash <$> [a; b])), w')) /\
  (exists w',
      check_loop_run false ([a; b] ++ a :: [b]) ∅ w
        = (Raise (AssertionError AssertTransitionLoop), w') /\
      state w' = Some a) /\
  parse_passage Toy.cfg 3 (Some seen) false wa
    = (Raise (AssertionError AssertTransitionLoop), wa).
Proof.
  intros a b w wa seen.
  assert (Hnd : NoDup (@state_hash Toy.collab <$> [a; b])) by compute_done.
  assert (Hin : @state_hash Toy.collab a ∈ @state_hash Toy.collab <$> [a; b])
    by compute_done.
  assert (Hcfg : check_loops Toy.cfg = true) by reflexivity.
  assert (Hs : state wa = Some a) by reflexivity.
  assert (Hseen : @state_hash Toy.collab a ∈ seen) by compute_done.
  destruct (@check_loop_second_occurrence Toy.collab Toy.cfg false w)
    as (_ & _ & Hdistinct & Hsecond); [discriminate|].
  destruct (@check_loop_second_occurrence Toy.collab Toy.cfg false wa)
    as (_ & Hturn & _); [discriminate|].
  destruct (Hturn seen a Hcfg Hs) as (_ & Hraise).
  exact (conj (conj Hnd (conj Hin (conj Hcfg (conj Hs Hseen))))
           (conj (Hdistinct _ Hnd)
              (conj (Hsecond _ _ _ Hnd Hin) (Hraise Hseen 2%nat)))).
Defined.

(** ** Failures of the oracle *)

Section OracleFacts.

Context `{C : Collab}.
Variable cfg : Config.

Lemma parse_loop_app {Acc} (fuel : nat) (train : bool)
    (l1 l2 : list (Input Passage * string))
    (consume : Acc -> Triple -> M Acc) :
  forall (acc : Acc) (w : World),
    parse_loop cfg fuel train (l1 ++ l2) consume acc w
    = (let* acc' := parse_loop cfg fuel train l1 consume acc in
       parse_loop cfg fuel train l2 consume acc') w.
Proof.
  induction l1 as [|[passage passage_id] l1 IH]; intros acc w; [done|].
  cbn [app parse_loop]. unfold bind.
  destruct (parse_one cfg fuel train passage passage_id w) as [[t| |] w1];
    [|done|done].
  destruct (consume acc t w1) as [[acc'| |] w2]; [|done|done].
  rewrite IH. reflexivity.
Qed.

(** A [ParserException] of [parse_passage] in training leaves
    [parse_one]. *)
Lemma parse_one_train_raises (fuel : nat) (passage : Input Passage)
    (passage_id : string) (w w1 w2 : World) (err : ParserError) :
  prepare true passage passage_id w = (Ret tt, w1) ->
  parse_passage cfg fuel (Some ∅) true w1
    = (Raise (ParserException err), w2) ->
  parse_one cfg fuel true passage passage_id w
    = (Raise (ParserException err), w2).
Proof.
  intros Hprep Hparse. unfold parse_one, bind. rewrite Hprep.
  unfold try_parse_passage, try_except, bind. by rewrite Hparse.
Qed.

(** C7. A failure of the oracle ([AttributeError] or [AssertionError] in
    [get_actions]) is swallowed outside training: the turn goes on as if
    the oracle had given no true action. In training it becomes the
    [ParserException] "Error in oracle during training"; and a
    [ParserException] of [parse_passage] in training leaves [parse] and
    [train] at once, whatever passages and epochs remain. *)
Theorem oracle_failure_spec (history history' : option (gset Z))
    (w w0 : World) (o o' : Oracle) (s : State) (e : exn) :
  oracle w0 = Some o -> state w0 = Some s ->
  get_actions o s = (Raise e, o') ->
  (e = AttributeError \/ exists a, e = AssertionError a) ->
  let w1 := set_oracle (Some o') w0 in
  (loop_check cfg history false w = (Ret history', w0) ->
   parse_step cfg history false w
     = (let* fin := step_with cfg false [] in ret (history', fin)) w1) /\
  (loop_check cfg history true w = (Ret history', w0) ->
   forall fuel,
     parse_passage cfg (S fuel) history true w
       = (Raise (ParserException ErrOracleTraining), w1)) /\
  (forall fuel n v done passage passage_id rest acc wa wb wc wd err,
      tv_passages v = done ++ (passage, passage_id) :: rest ->
      parse_loop cfg fuel true done collect_pairs [] (set_totals 0 0 wa)
        = (Ret acc, wb) ->
      prepare true passage passage_id wb = (Ret tt, wc) ->
      parse_passage cfg fuel (Some ∅) true wc
        = (Raise (ParserException err), wd) ->
      parse cfg fuel Train (tv_passages v) collect_pairs [] wa
        = (Raise (ParserException err), wd) /\
      train_loop cfg fuel (S n) v wa = (Raise (ParserException err), wd) /\
      (forall dev,
          v = train_start (tv_passages v) dev ->
          train cfg fuel (tv_passages v) dev (S n) wa
            = (Raise (ParserException err), wd))).
Proof.
  intros Ho Hs Hget He w1.
  assert (Horacle : forall train,
             oracle_actions train w0
             = if train then (Raise (ParserException ErrOracleTraining), w1)
               else (Ret [], w1)).
  { intros train. unfold oracle_actions, bind, get, get_some.
    rewrite Ho, Hs, Hget. unfold modify, try_except, lift. fold w1.
    destruct He as [-> | [a ->]]; by destruct train. }
  split; [|split].
  - intros Hcheck. unfold parse_step, bind at 1. rewrite Hcheck.
    unfold bind at 1. by rewrite (Horacle false).
  - intros Hcheck fuel. cbn [parse_passage]. unfold bind at 1.
    unfold parse_step, bind at 1. rewrite Hcheck.
    unfold bind at 1. by rewrite (Horacle true).
  - intros fuel n v done passage passage_id rest acc wa wb wc wd err
      Hv Hdone Hprep Hparse.
    assert (Hout : parse cfg fuel Train (tv_passages v) collect_pairs [] wa
                   = (Raise (ParserException err), wd)).
    { unfold parse, bind at 1. unfold modify at 1. cbn [is_train].
      rewrite Hv, parse_loop_app. unfold bind at 1. rewrite Hdone.
      cbn [parse_loop]. unfold bind at 1.
      by rewrite (parse_one_train_raises _ _ _ _ _ _ _ Hprep Hparse). }
    assert (Hloop : train_loop cfg fuel (S n) v wa
                    = (Raise (ParserException err), wd)).
    { cbn [train_loop]. unfold bind at 1. unfold train_epoch, bind at 1.
      unfold parse_collect.
      change (fun (acc0 : list (Input Passage * string)) (t : Triple) =>
                ret (acc0 ++ [(t.1.2, t.2)])) with collect_pairs.
      by rewrite Hout. }
    split; [exact Hout|]. split; [exact Hloop|].
    intros dev Hinit. unfold train.
    destruct (tv_passages v) as [|x l] eqn:Hp.
    { destruct done; discriminate. }
    unfold bind at 1. rewrite <- Hinit. by rewrite Hloop.
Qed.

End OracleFacts.

(** The hypotheses of C7 hold in the small instance, on the passage
    [Toy.desync] whose oracle fails at the first turn. *)
Lemma oracle_failure_spec_witness :
  let input : Input (@Passage Toy.collab) := InPassage Toy.desync in
  let w0 := set_totals 0 0 Toy.world0 in
  let w := (@prepare Toy.collab true input "d" w0).2 in
  let s : @State Toy.collab := {| Toy.s_left := 1; Toy.s_valid := [0%Z] |} in
  let h : option (gset Z) := Some ∅ in
  let h' : option (gset Z) := Some (∅ ∪ {[1%Z]}) in
  let v := {| tv_passages := [(input, "d")]; tv_dev := [];
              tv_best_score := 0%Q; tv_best_model := None;
              tv_save_model := true |} in
  (oracle w = Some Toy.desync /\ state w = Some s /\
   @get_actions Toy.collab Toy.desync s
     = (Raise (AssertionError AssertCollab), Toy.desync) /\
   loop_check Toy.cfg h false w = (Ret h', w) /\
   loop_check Toy.cfg h true w = (Ret h', w) /\
   parse_loop Toy.cfg 3 true [] collect_pairs [] w0 = (Ret [], w0) /\
   prepare true input "d" w0 = (Ret tt, w) /\
   parse_passage Toy.cfg 3 (Some ∅) true w = (Raise (ParserException ErrOracleTraining), w)) /\
  parse_step Toy.cfg h false w
    = (let* fin := step_with Toy.cfg false [] in ret (h', fin)) w /\
  parse_passage Toy.cfg 3 h true w = (Raise (ParserException ErrOracleTraining), w) /\
  parse Toy.cfg 3 Train [(input, "d")] collect_pairs [] Toy.world0 = (Raise (ParserException ErrOracleTraining), w) /\
  train_loop Toy.cfg 3 2 v Toy.world0 = (Raise (ParserException ErrOracleTraining), w) /\
  train Toy.cfg 3 [(input, "d")] [] 2 Toy.world0 = (Raise (ParserException ErrOracleTraining), w).
Proof.
  intros input w0 w s h h' v.
  destruct (@oracle_failure_spec Toy.collab Toy.cfg h h' w w Toy.desync
              Toy.desync s (AssertionError AssertCollab))
    as (Hinfer & Htrain & Habort);
    [reflexivity | reflexivity | reflexivity | right; by eexists |].
  destruct (Habort 3%nat 1%nat v [] input "d"%string [] [] Toy.world0 w0 w w
              ErrOracleTraining)
    as (Hparse & Hloop & Hrun);
    [reflexivity | reflexivity | reflexivity | reflexivity |].
  split; [repeat split; reflexivity|].
  split; [exact (Hinfer eq_refl)|].
  split; [exact (Htrain eq_refl 2%nat)|].
  split; [exact Hparse|]. split; [exact Hloop|].
  exact (Hrun [] eq_refl).
Defined.


(** ** [parse]: what is yielded for one input *)

Section TraceFacts.

Context `{C : Collab}.
Variable cfg : Config.

Lemma keeps_ret {A} (a : A) : keeps_trace (ret a).
Proof. done. Qed.

Lemma keeps_raise {A} (e : exn) : keeps_trace (@raise _ A e).
Proof. done. Qed.

Lemma keeps_no_fuel {A} : keeps_trace (@no_fuel _ A).
Proof. done. Qed.

Lemma keeps_lift {A} (o : outcome A) : keeps_trace (lift o).
Proof. done. Qed.

Lemma keeps_get {A} (f : World -> A) : keeps_trace (get f).
Proof. done. Qed.

Lemma keeps_get_some {A} (f : World -> option A) : keeps_trace (get_some f).
Proof. intros w. unfold get_some. by destruct (f w). Qed.

Lemma keeps_modify (f : World -> World) :
  (forall w, trace (f w) = trace w) -> keeps_trace (modify f).
Proof. intros Hf w. apply Hf. Qed.

Lemma keeps_bind {A B} (m : M A) (k : A -> M B) :
  keeps_trace m -> (forall a, keeps_trace (k a)) -> keeps_trace (bind m k).
Proof.
  intros Hm Hk w. unfold bind. specialize (Hm w).
  destruct (m w) as [[a| |] w1]; cbn in *; [|done|done].
  by rewrite Hk.
Qed.

Lemma keeps_try_except {A} (m : M A) (h : exn -> option (M A)) :
  keeps_trace m ->
  (forall e handler, h e = Some handler -> keeps_trace handler) ->
  keeps_trace (try_except m h).
Proof.
  intros Hm Hh w. unfold try_except. specialize (Hm w).
  destruct (m w) as [[a|e|] w1]; cbn in *; [done| |done].
  destruct (h e) as [handler|] eqn:He; [|done].
  by rewrite (Hh e handler He).
Qed.

Ltac keeps :=
  repeat lazymatch goal with
    | |- keeps_trace (ret _) => apply keeps_ret
    | |- keeps_trace (raise _) => apply keeps_raise
    | |- keeps_trace no_fuel => apply keeps_no_fuel
    | |- keeps_trace (lift _) => apply keeps_lift
    | |- keeps_trace (get _) => apply keeps_get
    | |- keeps_trace (get_some _) => apply keeps_get_some
    | |- keeps_trace (modify _) => apply keeps_modify; intros ?; reflexivity
    | |- keeps_trace (bind _ _) => apply keeps_bind; [|intros ?]
    | |- keeps_trace (let x := _ in _) => cbn zeta
    | |- keeps_trace (if ?b then _ else _) => destruct b
    | |- keeps_trace (match ?x with Some _ => _ | None => _ end) =>
        destruct x
    | |- keeps_trace (let '(_, _) := ?p in _) => destruct p
    end.

Lemma keeps_predict_action features true_actions :
  keeps_trace (predict_action features true_actions).
Proof. unfold predict_action. keeps. Qed.

Lemma keeps_check_loop history train : keeps_trace (check_loop history train).
Proof. unfold check_loop. keeps. Qed.

Lemma keeps_loop_check history train : keeps_trace (loop_check cfg history train).
Proof.
  unfold loop_check. destruct (check_loops cfg), history; keeps.
  apply keeps_check_loop.
Qed.

Lemma keeps_oracle_actions train : keeps_trace (oracle_actions train).
Proof.
  unfold oracle_actions. keeps.
  apply keeps_try_except; keeps.
  intros e handler He.
  destruct e; try discriminate; injection He as <-; keeps.
Qed.

Lemma keeps_train_update features predicted true_actions :
  keeps_trace (train_update cfg features predicted true_actions).
Proof. unfold train_update. keeps. Qed.

Lemma keeps_do_transition action : keeps_trace (do_transition action).
Proof.
  unfold do_transition. keeps.
  apply keeps_try_except; keeps.
  intros e handler He. destruct e; try discriminate. injection He as <-. keeps.
Qed.

Lemma keeps_step_with train true_actions :
  keeps_trace (step_with cfg train true_actions).
Proof.
  unfold step_with. keeps.
  - apply keeps_predict_action.
  - unfold choose_action. destruct true_actions; keeps.
    apply keeps_train_update.
  - unfold apply_action. keeps. apply keeps_do_transition.
Qed.

Lemma keeps_parse_step history train :
  keeps_trace (parse_step cfg history train).
Proof.
  unfold parse_step. keeps.
  - apply keeps_loop_check.
  - apply keeps_oracle_actions.
  - apply keeps_step_with.
Qed.

(** [parse_passage] records no event: it logs nothing and builds no
    passage. *)
Lemma keeps_parse_passage fuel :
  forall history train, keeps_trace (parse_passage cfg fuel history train).
Proof.
  induction fuel as [|fuel IH]; intros history train; cbn [parse_passage].
  - keeps.
  - apply keeps_bind; [apply keeps_parse_step|].
    intros turn. keeps. apply IH.
Qed.

Lemma keeps_prepare train passage passage_id :
  keeps_trace (prepare train passage passage_id).
Proof.
  unfold prepare. keeps.
Qed.

End TraceFacts.

Section ParseFacts.

Context `{C : Collab}.
Variable cfg : Config.

(** C10. In training with verification off, an input whose parse
    succeeds yields the triple (passage, passage, passage ID): its first
    element is the gold passage it was given, and no event is recorded
    for the input, so [create_passage] is not called. *)
Theorem train_yields_gold (fuel : nat) (passage : Input Passage)
    (passage_id : string) (w w1 w2 : World) :
  verify cfg = false ->
  prepare true passage passage_id w = (Ret tt, w1) ->
  parse_passage cfg fuel (Some ∅) true w1 = (Ret tt, w2) ->
  let w3 := set_totals (total_actions w2 + action_count w2)
              (total_correct w2 + correct_count w2) w2 in
  parse_one cfg fuel true passage passage_id w
    = (Ret (passage, passage, passage_id), w3) /\
  trace w3 = trace w /\
  forall Acc (rest : list (Input Passage * string))
      (consume : Acc -> Triple -> M Acc) (acc : Acc),
    parse_loop cfg fuel true ((passage, passage_id) :: rest) consume acc w
    = (let* acc' := consume acc (passage, passage, passage_id) in
       parse_loop cfg fuel true rest consume acc') w3.
Proof.
  intros Hverify Hprep Hparse w3.
  assert (Hone : parse_one cfg fuel true passage passage_id w
                 = (Ret (passage, passage, passage_id), w3)).
  { unfold parse_one, bind at 1. rewrite Hprep.
    unfold bind at 1. unfold try_parse_passage, try_except, bind at 1.
    rewrite Hparse. unfold ret at 1.
    unfold finish_passage. rewrite Hverify. cbn [negb orb].
    unfold bind, ret, get, modify. by destruct (oracle w2). }
  split; [exact Hone|]. split.
  - pose proof (keeps_prepare true passage passage_id w) as Hk1.
    pose proof (keeps_parse_passage cfg fuel (Some ∅) true w1) as Hk2.
    rewrite Hprep in Hk1. rewrite Hparse in Hk2. cbn in Hk1, Hk2.
    subst w3. cbn. congruence.
  - intros Acc rest consume acc. cbn [parse_loop]. unfold bind at 1.
    by rewrite Hone.
Qed.

(** C5, as the code has it. Outside training, an input on which
    [parse_passage] raises a [ParserException] is logged with its
    message, "failed" is printed, and the input still yields a triple:
    its first element is the passage that [create_passage] builds from
    the state reached. The consumer gets that triple and [parse] goes on
    with the next input. In training the [ParserException] leaves
    [parse]. *)
Theorem parse_failure_recovery (fuel : nat) (passage : Input Passage)
    (passage_id : string) (w : World) (err : ParserError) :
  (forall w1 w2 s g,
      prepare false passage passage_id w = (Ret tt, w1) ->
      parse_passage cfg fuel (Some ∅) false w1
        = (Raise (ParserException err), w2) ->
      state w2 = Some s ->
      create_passage s (verify cfg) = Ret g ->
      let logged := set_trace
                      (trace w2 ++ [EvLog passage_id err; EvPrintFailed;
                                    EvCreatePassage (verify cfg)]) w2 in
      let w3 := set_totals (total_actions w2 + action_count w2)
                  (total_correct w2 + correct_count w2) logged in
      parse_one cfg fuel false passage passage_id w
        = (Ret (InPassage g, passage, passage_id), w3) /\
      forall Acc (rest : list (Input Passage * string))
          (consume : Acc -> Triple -> M Acc) (acc : Acc),
        parse_loop cfg fuel false ((passage, passage_id) :: rest) consume acc w
        = (let* acc' := consume acc (InPassage g, passage, passage_id) in
           parse_loop cfg fuel false rest consume acc') w3) /\
  (forall w1 w2,
      prepare true passage passage_id w = (Ret tt, w1) ->
      parse_passage cfg fuel (Some ∅) true w1
        = (Raise (ParserException err), w2) ->
      forall Acc (rest : list (Input Passage * string))
          (consume : Acc -> Triple -> M Acc) (acc : Acc),
        parse_loop cfg fuel true ((passage, passage_id) :: rest) consume acc w
        = (Raise (ParserException err), w2)).
Proof.
  split.
  - intros w1 w2 s g Hprep Hparse Hs Hg logged w3.
    assert (Hone : parse_one cfg fuel false passage passage_id w
                   = (Ret (InPassage g, passage, passage_id), w3)).
    { unfold parse_one, bind at 1. rewrite Hprep.
      unfold bind at 1. unfold try_parse_passage, try_except, bind at 1.
      rewrite Hparse.
      unfold finish_passage. cbn [negb orb].
      unfold bind, emit, modify, ret, get_some, lift. cbn.
      rewrite Hs, Hg. subst w3 logged. cbn.
      by rewrite <- !app_assoc. }
    split; [exact Hone|].
    intros Acc rest consume acc. cbn [parse_loop]. unfold bind at 1.
    by rewrite Hone.
  - intros w1 w2 Hprep Hparse Acc rest consume acc.
    cbn [parse_loop]. unfold bind at 1.
    by rewrite (parse_one_train_raises cfg _ _ _ _ _ _ _ Hprep Hparse).
Qed.

End ParseFacts.

(** The hypotheses of C10 hold in the small instance: training on
    [Toy.easy] succeeds. *)
Lemma train_yields_gold_witness :
  let input : Input (@Passage Toy.collab) := InPassage Toy.easy in
  let w := Toy.world0 in
  let w1 := (prepare true input "e" w).2 in
  let w2 := (parse_passage Toy.cfg 5 (Some ∅) true w1).2 in
  let w3 := set_totals (total_actions w2 + action_count w2)
              (total_correct w2 + correct_count w2) w2 in
  (verify Toy.cfg = false /\
   prepare true input "e" w = (Ret tt, w1) /\
   parse_passage Toy.cfg 5 (Some ∅) true w1 = (Ret tt, w2)) /\
  parse_one Toy.cfg 5 true input "e" w = (Ret (input, input, "e"%string), w3) /\
  trace w3 = trace w.
Proof.
  intros input w w1 w2 w3.
  assert (H1 : verify Toy.cfg = false) by reflexivity.
  assert (H2 : prepare true input "e" w = (Ret tt, w1))
    by (vm_compute; reflexivity).
  assert (H3 : parse_passage Toy.cfg 5 (Some ∅) true w1 = (Ret tt, w2))
    by (vm_compute; reflexivity).
  destruct (@train_yields_gold Toy.collab Toy.cfg 5 input "e" w w1 w2 H1 H2 H3)
    as (Hone & Htrace & _).
  exact (conj (conj H1 (conj H2 H3)) (conj Hone Htrace)).
Defined.

(** The hypotheses of the amended C5 hold in the small instance: no action
    is valid in the states of [Toy.stuck]. *)
Lemma parse_failure_recovery_witness :
  let input : Input (@Passage Toy.collab) := InPassage Toy.stuck in
  let w := Toy.world0 in
  let w1 := (prepare false input "s" w).2 in
  let w2 := (parse_passage Toy.cfg 5 (Some ∅) false w1).2 in
  let s : @State Toy.collab := {| Toy.s_left := 2; Toy.s_valid := [] |} in
  let g : @Passage Toy.collab := Toy.built s in
  let logged := set_trace
                  (trace w2 ++ [EvLog "s" ErrNoValidActions; EvPrintFailed;
                                EvCreatePassage (verify Toy.cfg)]) w2 in
  let w3 := set_totals (total_actions w2 + action_count w2)
              (total_correct w2 + correct_count w2) logged in
  (prepare false input "s" w = (Ret tt, w1) /\
   parse_passage Toy.cfg 5 (Some ∅) false w1
     = (Raise (ParserException ErrNoValidActions), w2) /\
   state w2 = Some s /\
   @create_passage Toy.collab s (verify Toy.cfg) = Ret g /\
   prepare true input "s" w = (Ret tt, w1) /\
   parse_passage Toy.cfg 5 (Some ∅) true w1
     = (Raise (ParserException ErrNoValidActions), w2)) /\
  parse_one Toy.cfg 5 false input "s" w
    = (Ret (InPassage g, input, "s"%string), w3) /\
  parse_loop Toy.cfg 5 true [(input, "s"%string)] collect_pairs [] w
    = (Raise (ParserException ErrNoValidActions), w2).
Proof.
  intros input w w1 w2 s g logged w3.
  assert (H1 : prepare false input "s" w = (Ret tt, w1))
    by (vm_compute; reflexivity).
  assert (H2 : parse_passage Toy.cfg 5 (Some ∅) false w1
               = (Raise (ParserException ErrNoValidActions), w2))
    by (vm_compute; reflexivity).
  assert (H3 : state w2 = Some s) by (vm_compute; reflexivity).
  assert (H4 : @create_passage Toy.collab s (verify Toy.cfg) = Ret g)
    by reflexivity.
  assert (H5 : prepare true input "s" w = (Ret tt, w1))
    by (vm_compute; reflexivity).
  assert (H6 : parse_passage Toy.cfg 5 (Some ∅) true w1
               = (Raise (ParserException ErrNoValidActions), w2))
    by (vm_compute; reflexivity).
  destruct (@parse_failure_recovery Toy.collab Toy.cfg 5 input "s" w
              ErrNoValidActions) as (Htest & Htrain).
  destruct (Htest w1 w2 s g H1 H2 H3 H4) as (Hone & _).
  pose proof (Htrain w1 w2 H5 H6 _ [] collect_pairs []) as Hloop.
  exact (conj (conj H1 (conj H2 (conj H3 (conj H4 (conj H5 H6)))))
              (conj Hone Hloop)).
Defined.

(** C5 as stated fails. In test mode [parse_passage] raises a
    [ParserException] on [Toy.stuck]; the failure is logged and the batch
    goes on, but the failed input does yield an output passage, built by
    [create_passage] from the state reached. And a transition loop (on
    [Toy.looping], in test mode) is an [AssertionError], which [parse] does
    not catch: it ends the batch before the next input. *)
Lemma parse_failed_input_counterexample :
  let stuck : Input (@Passage Toy.collab) := InPassage Toy.stuck in
  let easy : Input (@Passage Toy.collab) := InPassage Toy.easy in
  let looping : Input (@Passage Toy.collab) := InPassage Toy.looping in
  let w := set_totals 0 0 Toy.world0 in
  let run := parse_collect Toy.cfg 5 Test [(stuck, "s"); (easy, "e")]
               (fun t => t) Toy.world0 in
  (parse_passage Toy.cfg 5 (Some ∅) false (prepare false stuck "s" w).2).1
    = Raise (ParserException ErrNoValidActions) /\
  run.1 = Ret [(InPassage {| Toy.p_steps := 2; Toy.p_valid := [];
                             Toy.p_gold := []; Toy.p_oracle_fails := false |},
                stuck, "s"%string);
               (InPassage {| Toy.p_steps := 0; Toy.p_valid := [0%Z];
                             Toy.p_gold := []; Toy.p_oracle_fails := false |},
                easy, "e"%string)] /\
  trace run.2 = [EvLog "s" ErrNoValidActions; EvPrintFailed;
                 EvCreatePassage false; EvCreatePassage false] /\
  (parse_passage Toy.cfg 5 (Some ∅) false (prepare false looping "l" w).2).1
    = Raise (AssertionError AssertTransitionLoop) /\
  (parse_collect Toy.cfg 5 Test [(looping, "l"); (easy, "e")]
     (fun t => t) Toy.world0).1
    = Raise (AssertionError AssertTransitionLoop).
Proof.
  cbv zeta.
  split; [vm_compute; reflexivity|].
  split; [vm_compute; reflexivity|].
  split; [vm_compute; reflexivity|].
  split; vm_compute; reflexivity.
Qed.


(** ** [train] *)

Section TrainFacts.

Context `{C : Collab}.
Variable cfg : Config.

(** C8. With no passage to train on and a model file, [train] loads the
    model from that path and returns it; nothing else changes in the
    parser or around it: no parse, no update of the classifier, the same
    learning rate. *)
Theorem train_no_data_loads (fuel : nat)
    (dev : list (Input Passage * string)) (iterations : nat) (w : World)
    (path : string) (m saved : Model) :
  model_file w = Some path ->
  model w = Some m ->
  load m path (disk w) = Ret saved ->
  train cfg fuel [] dev iterations w
    = (Ret (Some saved), set_model (Some saved) w) /\
  learning_rate (set_model (Some saved) w) = learning_rate w /\
  trace (set_model (Some saved) w) = trace w.
Proof.
  intros Hfile Hm Hdisk. split; [|done].
  unfold train, bind, get. rewrite Hfile.
  unfold model_load, bind, get_some, get, lift, modify.
  by rewrite Hm, Hdisk.
Qed.

Lemma parse_loop_collect_length {B} (fuel : nat) (train : bool)
    (f : Triple -> B) (passages : list (Input Passage * string)) :
  forall acc w r w',
    parse_loop cfg fuel train passages (fun acc t => ret (acc ++ [f t])) acc w
      = (Ret r, w') ->
    length r = (length acc + length passages)%nat.
Proof.
  induction passages as [|[passage passage_id] rest IH];
    intros acc w r w' Hrun; cbn [parse_loop] in Hrun.
  - injection Hrun as <- _. cbn. lia.
  - unfold bind at 1 in Hrun.
    destruct (parse_one cfg fuel train passage passage_id w) as [[t| |] w1];
      [|done|done].
    unfold bind at 1, ret at 1 in Hrun.
    apply IH in Hrun. rewrite Hrun, length_app. cbn. lia.
Qed.

Lemma parse_collect_length {B} (fuel : nat) (mode : Mode)
    (f : Triple -> B) (passages : list (Input Passage * string)) w r w' :
  parse_collect cfg fuel mode passages f w = (Ret r, w') ->
  length r = length passages.
Proof.
  unfold parse_collect, parse, bind at 1, modify. intros Hrun.
  by apply parse_loop_collect_length in Hrun.
Qed.

Lemma retain_model_true (best_model : option Model) (w : World) (m : Model) :
  model w = Some m ->
  retain_model true best_model w
    = (Ret (Some (average m)), save_to (average m) w).
Proof.
  intros Hm. unfold retain_model, bind, get_some, get, save_to. rewrite Hm.
  by destruct (model_file w).
Qed.

Lemma evaluate_dev_scored (fuel : nat) (dev : list (Input Passage * string))
    (best_score : Q) (save_model : bool) (w w' : World)
    (pairs : list (Input Passage * string * EvalScores)) :
  dev <> [] ->
  parse_collect cfg fuel Dev dev
    (fun t => ((t.1.2, t.2), evaluate t.1.1 t.1.2)) w = (Ret pairs, w') ->
  evaluate_dev cfg fuel dev best_score save_model w
    = (Ret (if Qle_bool best_score (average_f1 pairs.*2)
            then (pairs.*1, average_f1 pairs.*2, true)
            else (pairs.*1, best_score, false)), w').
Proof.
  intros Hdev Hrun. unfold evaluate_dev.
  destruct dev as [|d dev']; [done|].
  unfold bind. rewrite Hrun.
  apply parse_collect_length in Hrun.
  destruct pairs as [|p pairs']; [done|].
  by destruct (Qle_bool _ _).
Qed.

Lemma model_save_to (m : Model) (w : World) :
  model (save_to m w) = model w.
Proof. unfold save_to. by destruct (model_file w). Qed.

(** An epoch without dev passages keeps [dev] empty and [save_model]
    true, and retains the average of the classifier as it stands. *)
Lemma train_epoch_no_dev (fuel : nat) (v v' : TrainVars) (w w' : World) :
  tv_dev v = [] -> tv_save_model v = true ->
  train_epoch cfg fuel v w = (Ret v', w') ->
  tv_dev v' = [] /\ tv_save_model v' = true /\
  exists m, model w' = Some m /\ tv_best_model v' = Some (average m).
Proof.
  intros Hdev Hsave. unfold train_epoch, bind at 1.
  destruct (parse_collect cfg fuel Train (tv_passages v) _ w)
    as [[passages1| |] w1]; [|done|done].
  unfold bind at 1, modify at 1. unfold bind at 1, get at 1.
  unfold bind at 1, modify at 1. unfold bind at 1.
  rewrite Hdev, Hsave. cbn [evaluate_dev]. unfold ret at 1. cbn [fst snd].
  unfold bind at 1.
  match goal with
  | |- context [retain_model true ?bm ?w2] =>
      destruct (model w2) as [m|] eqn:Hm;
      [rewrite (retain_model_true bm w2 m Hm)
      |unfold retain_model, bind, get_some; by rewrite Hm]
  end.
  unfold ret. intros [= <- <-]. cbn.
  repeat split. exists m. by rewrite model_save_to.
Qed.

(** C3. One epoch of [train]. With dev passages, the average of the
    classifier is retained, and saved when a model file is given, if and
    only if the dev score of the epoch is at least the best score so far
    (so a tie retains the newer model), and the best score becomes the
    greater of the two. Without dev passages the average is retained at
    every epoch, and what the loop returns is the average taken at its
    last epoch. *)
Theorem train_epoch_retention (fuel : nat) (v : TrainVars) (w w1 : World)
    (passages1 : list (Input Passage * string)) :
  parse_collect cfg fuel Train (tv_passages v) (fun t => (t.1.2, t.2)) w
    = (Ret passages1, w1) ->
  let shuffled := (Py.shuffle passages1 (random w1)).1 in
  let w2 := after_decay passages1 w1 in
  (forall pairs w3 m,
      tv_dev v <> [] ->
      parse_collect cfg fuel Dev (tv_dev v)
        (fun t => ((t.1.2, t.2), evaluate t.1.1 t.1.2)) w2 = (Ret pairs, w3) ->
      model w3 = Some m ->
      let score := average_f1 pairs.*2 in
      ((tv_best_score v <= score)%Q ->
       train_epoch cfg fuel v w
         = (Ret {| tv_passages := shuffled; tv_dev := pairs.*1;
                   tv_best_score := score;
                   tv_best_model := Some (average m);
                   tv_save_model := true |},
            save_to (average m) w3)) /\
      (~ (tv_best_score v <= score)%Q ->
       train_epoch cfg fuel v w
         = (Ret {| tv_passages := shuffled; tv_dev := pairs.*1;
                   tv_best_score := tv_best_score v;
                   tv_best_model := tv_best_model v;
                   tv_save_model := false |},
            w3))) /\
  (forall m,
      tv_dev v = [] -> tv_save_model v = true -> model w2 = Some m ->
      train_epoch cfg fuel v w
        = (Ret {| tv_passages := shuffled; tv_dev := [];
                  tv_best_score := tv_best_score v;
                  tv_best_model := Some (average m);
                  tv_save_model := true |},
           save_to (average m) w2)) /\
  (forall n r w',
      tv_dev v = [] -> tv_save_model v = true ->
      train_loop cfg fuel (S n) v w = (Ret r, w') ->
      exists m, model w' = Some m /\ r = Some (average m)).
Proof.
  intros Htrain shuffled w2.
  assert (Hhead :
             train_epoch cfg fuel v w
             = (let* ev := evaluate_dev cfg fuel (tv_dev v) (tv_best_score v)
                             (tv_save_model v) in
                let* best_model' := retain_model ev.2 (tv_best_model v) in
                ret {| tv_passages := shuffled; tv_dev := ev.1.1;
                       tv_best_score := ev.1.2; tv_best_model := best_model';
                       tv_save_model := ev.2 |}) w2).
  { unfold train_epoch, bind at 1. rewrite Htrain.
    unfold bind at 1, modify at 1. unfold bind at 1, get at 1.
    unfold bind at 1, modify at 1. reflexivity. }
  split; [|split].
  - intros pairs w3 m Hdev Hrun Hm score.
    pose proof (evaluate_dev_scored fuel (tv_dev v) (tv_best_score v)
                  (tv_save_model v) w2 w3 pairs Hdev Hrun) as Hev.
    fold score in Hev. split.
    + intros Hle. apply Qle_bool_iff in Hle. rewrite Hle in Hev.
      rewrite Hhead. unfold bind at 1. rewrite Hev. cbn [fst snd].
      unfold bind at 1. by rewrite (retain_model_true _ _ m Hm).
    + intros Hlt. destruct (Qle_bool (tv_best_score v) score) eqn:Hcmp.
      { by apply Qle_bool_iff in Hcmp. }
      rewrite Hhead. unfold bind at 1. by rewrite Hev.
  - intros m Hdev Hsave Hm. rewrite Hhead, Hdev, Hsave.
    cbn [evaluate_dev]. unfold bind at 1, ret at 1. cbn [fst snd].
    unfold bind at 1. by rewrite (retain_model_true _ _ m Hm).
  - clear Htrain shuffled w2 Hhead passages1 w1.
    intros n. revert v w.
    induction n as [|n IH]; intros v w r w' Hdev Hsave Hloop.
    + cbn [train_loop] in Hloop. unfold bind at 1 in Hloop.
      destruct (train_epoch cfg fuel v w) as [[v1| |] wa] eqn:Hep;
        [|done|done].
      destruct (train_epoch_no_dev fuel v v1 w wa Hdev Hsave Hep)
        as (_ & _ & m & Hm & Hbest).
      injection Hloop as <- <-. eauto.
    + remember (S n) as k eqn:Hk. cbn [train_loop] in Hloop.
      unfold bind at 1 in Hloop.
      destruct (train_epoch cfg fuel v w) as [[v1| |] wa] eqn:Hep;
        [|done|done].
      destruct (train_epoch_no_dev fuel v v1 w wa Hdev Hsave Hep)
        as (Hdev1 & Hsave1 & _).
      subst k. by apply (IH v1 wa).
Qed.

End TrainFacts.

(** The hypotheses of C8 hold in the small instance, with a model saved
    under [m.bin]. *)
Lemma train_no_data_loads_witness :
  let saved : @Model Toy.collab := [(0%Z, 5%Q)] in
  let w := @Parser_new Toy.collab Toy.cfg (Some "m.bin"%string) []
             ({[ "m.bin"%string := saved ]} : gmap string Py.dict) in
  (model_file w = Some "m.bin"%string /\
   model w = Some (@Model_new Toy.collab) /\
   @load Toy.collab (@Model_new Toy.collab) "m.bin" (disk w) = Ret saved) /\
  @train Toy.collab Toy.cfg 5 [] [(InPassage Toy.easy, "e"%string)] 3 w
    = (Ret (Some saved), set_model (Some saved) w) /\
  learning_rate (set_model (Some saved) w) = learning_rate w /\
  trace (set_model (Some saved) w) = trace w.
Proof.
  intros saved w.
  assert (H1 : model_file w = Some "m.bin"%string) by reflexivity.
  assert (H2 : model w = Some (@Model_new Toy.collab)) by reflexivity.
  assert (H3 : @load Toy.collab (@Model_new Toy.collab) "m.bin" (disk w)
               = Ret saved)
    by (vm_compute; reflexivity).
  exact (conj (conj H1 (conj H2 H3))
           (@train_no_data_loads Toy.collab Toy.cfg 5
              [(InPassage Toy.easy, "e"%string)] 3 w "m.bin"%string
              (@Model_new Toy.collab) saved H1 H2 H3)).
Defined.

(** The hypotheses of C3 hold in the small instance. The dev score of the
    epoch is 0: it ties with the best score 0 of [v0], it is below the
    best score 1 of [v1], and [v2] has no dev passages. *)
Lemma train_epoch_retention_witness :
  let e : Input (@Passage Toy.collab) * string := (InPassage Toy.easy, "e"%string) in
  let w := @Parser_new Toy.collab Toy.cfg (Some "m.bin"%string) []
             (∅ : gmap string Py.dict) in
  let w1 := (parse_collect Toy.cfg 5 Train [e] (fun t => (t.1.2, t.2)) w).2 in
  let w2 := after_decay [e] w1 in
  let run := parse_collect Toy.cfg 5 Dev [e]
               (fun t => ((t.1.2, t.2), evaluate t.1.1 t.1.2)) w2 in
  let pairs : list (Input (@Passage Toy.collab) * string * @EvalScores Toy.collab) :=
    [(e, 0%Q)] in
  let w3 := run.2 in
  let m := @Model_new Toy.collab in
  let v0 := train_start [e] [e] in
  let v1 := {| tv_passages := [e]; tv_dev := [e]; tv_best_score := 1%Q;
               tv_best_model := None; tv_save_model := false |} in
  let v2 := train_start [e] [] in
  (parse_collect Toy.cfg 5 Train [e] (fun t => (t.1.2, t.2)) w = (Ret [e], w1) /\
   run = (Ret pairs, w3) /\ model w3 = Some m /\ model w2 = Some m /\
   (tv_best_score v0 <= @average_f1 Toy.collab pairs.*2)%Q /\
   ~ (tv_best_score v1 <= @average_f1 Toy.collab pairs.*2)%Q) /\
  train_epoch Toy.cfg 5 v0 w
    = (Ret {| tv_passages := [e]; tv_dev := [e]; tv_best_score := 0%Q;
              tv_best_model := Some m; tv_save_model := true |},
       save_to m w3) /\
  train_epoch Toy.cfg 5 v1 w = (Ret v1, w3) /\
  train_epoch Toy.cfg 5 v2 w
    = (Ret {| tv_passages := [e]; tv_dev := []; tv_best_score := 0%Q;
              tv_best_model := Some m; tv_save_model := true |},
       save_to m w2) /\
  exists m', model (train_loop Toy.cfg 5 1 v2 w).2 = Some m' /\
             (train_loop Toy.cfg 5 1 v2 w).1 = Ret (Some (average m')).
Proof.
  intros e w w1 w2 run pairs w3 m v0 v1 v2.
  assert (H1 : parse_collect Toy.cfg 5 Train [e] (fun t => (t.1.2, t.2)) w
               = (Ret [e], w1)) by (vm_compute; reflexivity).
  assert (H2 : run = (Ret pairs, w3)) by (vm_compute; reflexivity).
  assert (H3 : model w3 = Some m) by (vm_compute; reflexivity).
  assert (H4 : model w2 = Some m) by (vm_compute; reflexivity).
  assert (H5 : (tv_best_score v0 <= @average_f1 Toy.collab pairs.*2)%Q)
    by (vm_compute; discriminate).
  assert (H6 : ~ (tv_best_score v1 <= @average_f1 Toy.collab pairs.*2)%Q)
    by (intros H; vm_compute in H; by apply H).
  destruct (@train_epoch_retention Toy.collab Toy.cfg 5 v0 w w1 [e] H1)
    as (Hdev0 & _ & _).
  destruct (Hdev0 pairs w3 m) as (Hkeep & _);
    [discriminate | exact H2 | exact H3 |].
  destruct (@train_epoch_retention Toy.collab Toy.cfg 5 v1 w w1 [e] H1)
    as (Hdev1 & _ & _).
  destruct (Hdev1 pairs w3 m) as (_ & Hdrop);
    [discriminate | exact H2 | exact H3 |].
  destruct (@train_epoch_retention Toy.collab Toy.cfg 5 v2 w w1 [e] H1)
    as (_ & Hnodev & Hlast).
  assert (Hrun : train_loop Toy.cfg 5 1 v2 w
                 = ((train_loop Toy.cfg 5 1 v2 w).1, (train_loop Toy.cfg 5 1 v2 w).2))
    by (by destruct (train_loop Toy.cfg 5 1 v2 w)).
  assert (Hret : (train_loop Toy.cfg 5 1 v2 w).1 = Ret (Some m))
    by (vm_compute; reflexivity).
  rewrite Hret in Hrun at 1.
  destruct (Hlast 0%nat (Some m) _ eq_refl eq_refl Hrun) as (m' & Hm' & Heq).
  refine (conj (conj H1 (conj H2 (conj H3 (conj H4 (conj H5 H6)))))
            (conj (Hkeep H5) (conj (Hdrop H6) (conj (Hnodev m eq_refl eq_refl H4) _)))).
  exists m'. split; [exact Hm'|]. rewrite Hret. by rewrite Heq.
Defined.


(** ** The folds of the cross-validation *)

Section FoldFacts.

Context {A : Type}.

Lemma swap_perm (i j : nat) (l : list A) : Py.swap i j l ≡ₚ l.
Proof.
  unfold Py.swap.
  destruct (l !! i) as [a|] eqn:Hi; [|done].
  destruct (l !! j) as [b|] eqn:Hj; [|done].
  by apply Permutation_insert_swap.
Qed.

Lemma shuffle_from_perm (i : nat) :
  forall (l : list A) (r : Py.rng), (Py.shuffle_from i l r).1 ≡ₚ l.
Proof.
  induction i as [|i IH]; intros l r; cbn [Py.shuffle_from]; [done|].
  destruct (Py.randbelow (S (S i)) r) as [j r'].
  rewrite IH. apply swap_perm.
Qed.

(** [shuffle] returns a permutation of its argument. *)
Lemma shuffle_perm (l : list A) (r : Py.rng) : (Py.shuffle l r).1 ≡ₚ l.
Proof. apply shuffle_from_perm. Qed.

Lemma slice_step_nil (k c : nat) : Py.slice_step k c (@nil A) = [].
Proof. done. Qed.

Lemma make_folds_length (k : nat) (l : list A) : length (make_folds k l) = k.
Proof. unfold make_folds. by rewrite length_fmap, length_seq. Qed.

Lemma make_folds_lookup (k i : nat) (l : list A) :
  (i < k)%nat -> make_folds k l !! i = Some (Py.slice_step k i l).
Proof.
  intros Hi. unfold make_folds. rewrite list_lookup_fmap.
  by rewrite lookup_seq_lt.
Qed.

Lemma make_folds_cons (k : nat) (x : A) (l : list A) :
  concat (make_folds (S k) (x :: l)) ≡ₚ x :: concat (make_folds (S k) l).
Proof.
  unfold make_folds.
  rewrite <- (cons_seq k 0) at 1. rewrite fmap_cons. cbn [concat].
  change (Py.slice_step (S k) 0 (x :: l))
    with (x :: Py.slice_step (S k) (S k - 1) l).
  replace (S k - 1)%nat with k by lia.
  rewrite <- fmap_S_seq, <- list_fmap_compose.
  change ((fun i => Py.slice_step (S k) i (x :: l)) ∘ S)
    with (fun i => Py.slice_step (S k) i l).
  rewrite (seq_S k 0), fmap_app, concat_app. cbn [fmap list_fmap concat].
  rewrite app_nil_r. cbn [app Nat.add]. constructor.
  apply Permutation_app_comm.
Qed.

(** The folds are a partition of the passages. *)
Lemma make_folds_perm (k : nat) (l : list A) :
  (0 < k)%nat -> concat (make_folds k l) ≡ₚ l.
Proof.
  intros Hk. destruct k as [|k]; [lia|]. clear Hk.
  induction l as [|x l IH].
  - unfold make_folds. generalize (seq 0 (S k)). intros js.
    by induction js.
  - by rewrite make_folds_cons, IH.
Qed.

Lemma imap_pair_seq (f : nat -> list A) (k : nat) :
  forall s,
    imap (fun n x => (s + n, f x)%nat) (seq s k)
    = (fun j => (j, f j)) <$> seq s k.
Proof.
  induction k as [|k IH]; intros s; [done|].
  cbn [seq imap fmap list_fmap]. rewrite Nat.add_0_r. f_equal.
  rewrite <- IH. apply imap_ext. intros n x _. cbn. f_equal. lia.
Qed.

Lemma omap_keep (i t : nat) (f : nat -> list A) (js : list nat) :
  omap (fun jf : nat * list A =>
          if bool_decide (jf.1 ≠ i ∧ jf.1 ≠ t) then Some jf.2 else None)
       ((fun j => (j, f j)) <$> js)
  = f <$> filter (fun j => j ≠ i ∧ j ≠ t) js.
Proof.
  induction js as [|j js IH]; [done|].
  rewrite fmap_cons, filter_cons. cbn [omap list_omap fst snd].
  fold (@omap list _ _ _ (fun jf : nat * list A =>
          if bool_decide (jf.1 ≠ i ∧ jf.1 ≠ t) then Some jf.2 else None)
          ((fun j => (j, f j)) <$> js)).
  rewrite IH. case_bool_decide.
  - by rewrite decide_True.
  - by rewrite decide_False.
Qed.

(** The three lists of fold [i]: dev is fold [i], test is fold
    [(i + 1) mod k], train is the concatenation of the other folds. *)
Lemma fold_split_spec (k i : nat) (l : list A) :
  (i < k)%nat ->
  fold_split k (make_folds k l) i
  = (concat ((fun j => Py.slice_step k j l)
               <$> filter (fun j => j ≠ i ∧ j ≠ ((i + 1) mod k)%nat) (seq 0 k)),
     Py.slice_step k i l,
     Py.slice_step k ((i + 1) mod k) l).
Proof.
  intros Hi. unfold fold_split.
  rewrite (make_folds_lookup k i l Hi).
  rewrite (make_folds_lookup k ((i + 1) mod k) l)
    by (apply Nat.mod_upper_bound; lia).
  cbn [default]. f_equal. f_equal. f_equal.
  unfold make_folds. rewrite imap_fmap.
  pose proof (imap_pair_seq (fun j => Py.slice_step k j l) k 0) as Him.
  cbn [Nat.add] in Him.
  assert (Hfun : (fun n : nat => pair n ∘ (fun i0 => Py.slice_step k i0 l))
                 = (fun n x => (n, Py.slice_step k x l))) by done.
  rewrite Hfun, Him.
  apply omap_keep.
Qed.

Lemma cross_validation_splits_length (k : nat) (l : list A) :
  length (cross_validation_splits k l) = k.
Proof.
  unfold cross_validation_splits. by rewrite length_fmap, length_seq.
Qed.

Lemma cross_validation_splits_lookup (k i : nat) (l : list A) :
  (i < k)%nat ->
  cross_validation_splits k l !! i = Some (fold_split k (make_folds k l) i).
Proof.
  intros Hi. unfold cross_validation_splits.
  by rewrite list_lookup_fmap, lookup_seq_lt.
Qed.

(** Three folds over nine passages: each fold has three passages; over
    the three calls every passage is once in a dev list and once in a
    test list; and no passage is in the dev list and in the test list of
    the same call. *)
Lemma three_folds_of_nine (l : list A) :
  length l = 9%nat ->
  let splits := cross_validation_splits 3 l in
  Forall (fun f => length f = 3%nat) (make_folds 3 l) /\
  concat ((fun s => s.1.2) <$> splits) ≡ₚ l /\
  concat ((fun s => s.2) <$> splits) ≡ₚ l /\
  (NoDup l ->
   forall i tr dv ts x,
     splits !! i = Some (tr, dv, ts) -> x ∈ dv -> x ∉ ts).
Proof.
  intros Hlen.
  destruct l as [|x0 [|x1 [|x2 [|x3 [|x4 [|x5 [|x6 [|x7 [|x8 [|x9 l]]]]]]]]]];
    try discriminate.
  clear Hlen.
  assert (Hsplits :
            cross_validation_splits 3 [x0; x1; x2; x3; x4; x5; x6; x7; x8]
            = [([x2; x5; x8], [x0; x3; x6], [x1; x4; x7]);
               ([x0; x3; x6], [x1; x4; x7], [x2; x5; x8]);
               ([x1; x4; x7], [x2; x5; x8], [x0; x3; x6])]) by reflexivity.
  cbn zeta. rewrite Hsplits. clear Hsplits.
  split; [repeat constructor|]. cbn [fmap list_fmap concat app fst snd].
  split; [solve_Permutation|]. split; [solve_Permutation|].
  intros Hnd i tr dv ts x Hi Hdv Hts.
  rewrite !NoDup_cons in Hnd.
  destruct i as [|[|[|i]]]; cbn in Hi; [| | |done];
    injection Hi as <- <- <-; set_solver.
Qed.

End FoldFacts.

Section MainFacts.

Context `{C : Collab}.
Variable cfg : Config.

(** C4. [main] partitions the (shuffled) passages into [k] folds and
    calls [train_test] once per fold index [i], in order, with dev =
    fold [i], test = fold [(i + 1) mod k] and train = the other folds
    concatenated. For [k = 3] and 9 passages there are 3 folds of 3
    passages; every passage is in exactly one dev list and one test list
    over the run, and never in both for the same fold index. *)
Theorem cross_validation_roles (fuel : nat) (model_path : option string)
    (iterations k : nat) (all_passages : list (Input Passage * string))
    (w : World) :
  (0 < k <= length all_passages)%nat ->
  let shuffled := (Py.shuffle all_passages (random w)).1 in
  let folds := make_folds k shuffled in
  let splits := cross_validation_splits k shuffled in
  main_folds cfg fuel model_path iterations k all_passages w
    = run_folds cfg fuel model_path iterations splits
        (set_random (Py.shuffle all_passages (random w)).2 w) /\
  (shuffled ≡ₚ all_passages /\ length folds = k /\
   concat folds ≡ₚ all_passages) /\
  length splits = k /\
  (forall i, (i < k)%nat ->
     folds !! i = Some (Py.slice_step k i shuffled) /\
     splits !! i
     = Some (concat ((fun j => Py.slice_step k j shuffled)
                       <$> filter (fun j => j ≠ i ∧ j ≠ ((i + 1) mod k)%nat)
                             (seq 0 k)),
             Py.slice_step k i shuffled,
             Py.slice_step k ((i + 1) mod k) shuffled)) /\
  (k = 3%nat -> length all_passages = 9%nat ->
   Forall (fun f => length f = 3%nat) folds /\
   concat ((fun s => s.1.2) <$> splits) ≡ₚ all_passages /\
   concat ((fun s => s.2) <$> splits) ≡ₚ all_passages /\
   (NoDup all_passages ->
    forall i tr dv ts x,
      splits !! i = Some (tr, dv, ts) -> x ∈ dv -> x ∉ ts)).
Proof.
  intros [Hk Hlen] shuffled folds splits.
  pose proof (shuffle_perm all_passages (random w)) as Hperm.
  fold shuffled in Hperm.
  split; [|split; [|split; [|split]]].
  - unfold main_folds.
    destruct (length all_passages <? k)%nat eqn:Hcmp.
    { apply Nat.ltb_lt in Hcmp. lia. }
    reflexivity.
  - split; [done|]. split; [apply make_folds_length|].
    subst folds. by rewrite make_folds_perm.
  - apply cross_validation_splits_length.
  - intros i Hi. split; [by apply make_folds_lookup|].
    subst splits. rewrite cross_validation_splits_lookup by done.
    by rewrite fold_split_spec.
  - intros -> Hnine.
    assert (Hnine' : length shuffled = 9%nat) by (by rewrite Hperm).
    destruct (three_folds_of_nine shuffled Hnine')
      as (Hthree & Hdev & Htest & Hdisj).
    split; [done|]. split; [by rewrite <- Hperm|].
    split; [by rewrite <- Hperm|].
    intros Hnd. apply Hdisj. by rewrite Hperm.
Qed.

End MainFacts.


(** The hypotheses of C4 hold in the small instance: nine passages with
    distinct ids, three folds. *)
Lemma cross_validation_roles_witness :
  let p : Input (@Passage Toy.collab) := InPassage Toy.easy in
  let all_passages : list (Input (@Passage Toy.collab) * string) :=
    [(p, "p1"); (p, "p2"); (p, "p3"); (p, "p4"); (p, "p5"); (p, "p6");
     (p, "p7"); (p, "p8"); (p, "p9")]%string in
  let w := Toy.world0 in
  let shuffled := (Py.shuffle all_passages (random w)).1 in
  let folds := make_folds 3 shuffled in
  let splits := cross_validation_splits 3 shuffled in
  ((0 < 3 <= length all_passages)%nat /\ length all_passages = 9%nat /\
   NoDup all_passages) /\
  main_folds Toy.cfg 5 None 1 3 all_passages w
    = run_folds Toy.cfg 5 None 1 splits
        (set_random (Py.shuffle all_passages (random w)).2 w) /\
  Forall (fun f => length f = 3%nat) folds /\
  concat ((fun s => s.1.2) <$> splits) ≡ₚ all_passages /\
  concat ((fun s => s.2) <$> splits) ≡ₚ all_passages /\
  (forall i tr dv ts x, splits !! i = Some (tr, dv, ts) -> x ∈ dv -> x ∉ ts).
Proof.
  intros p all_passages w shuffled folds splits.
  assert (H1 : (0 < 3 <= length all_passages)%nat) by (cbn; lia).
  assert (H2 : length all_passages = 9%nat) by reflexivity.
  assert (H3 : NoDup all_passages).
  { apply (NoDup_fmap_1 snd). compute_done. }
  destruct (@cross_validation_roles Toy.collab Toy.cfg 5 None 1 3
              all_passages w H1)
    as (Hmain & _ & _ & _ & Hnine).
  destruct (Hnine eq_refl H2) as (Hthree & Hdev & Htest & Hdisj).
  exact (conj (conj H1 (conj H2 H3))
           (conj Hmain (conj Hthree (conj Hdev (conj Htest (Hdisj H3)))))).
Defined.


(** ** Reading a batch of files *)

Section ReadingFacts.

Context `{F : Files}.
Variable cfg : Config.

Lemma read_passages_app (l1 l2 : list (Source Passage)) :
  read_passages cfg (l1 ++ l2)
  = match read_passages cfg l1 with
    | (yielded, Ret tt) =>
        ((yielded ++ (read_passages cfg l2).1), (read_passages cfg l2).2)
    | r => r
    end.
Proof.
  induction l1 as [|file l1 IH]; cbn [app read_passages].
  - by destruct (read_passages cfg l2).
  - destruct (read_passage file) as [[passage i]| |]; [|done|done].
    rewrite IH.
    destruct (read_passages cfg l1) as [more [[]| |]]; [|done|done].
    cbn. by rewrite app_assoc.
Qed.

(** C9, as the code has it. A path that does not exist makes
    [read_passage] raise [IOError] "File not found: <path>", and the
    exception leaves [read_passages] there: the passages of the files
    before it have been yielded, the files after it are not read. The
    same holds for every exception of [read_passage], whatever the
    file. A file that exists but that [file2passage] cannot read
    ([IOError] or [ParseError]) is opened again: if that [open] raises,
    its exception leaves [read_passage]; if it succeeds, the file is
    read by the converter of its extension, or as plain text when
    there is none, and what the converter or [readlines] raises leaves
    [read_passage] too. *)
Theorem read_passages_missing_file (pre post : list (Source Passage))
    (path : string) (yielded : list (Input Passage * string)) :
  path_exists path = false ->
  read_passages cfg pre = (yielded, Ret tt) ->
  read_passage (SrcPath path)
    = Raise (IOError (String.append "File not found: " path)) /\
  read_passages cfg (pre ++ SrcPath path :: post)
    = (yielded, Raise (IOError (String.append "File not found: " path))) /\
  (forall file e,
      read_passage file = Raise e ->
      read_passages cfg (pre ++ file :: post) = (yielded, Raise e)) /\
  (forall path' e passage_id ext,
      path_exists path' = true ->
      file2passage path' = Raise e ->
      (e = ParseError \/ exists msg, e = IOError msg) ->
      splitext_basename path' = (passage_id, ext) ->
      (forall e', open_file path' = Raise e' ->
                  read_passage (SrcPath path') = Raise e') /\
      (open_file path' = Ret tt ->
       (converter_for ext = None ->
        read_passage (SrcPath path')
          = match readlines path' with
            | Ret lines =>
                Ret (InTokens (paragraphs (str_strip <$> lines) None),
                     passage_id)
            | Raise e' => Raise e'
            | NoFuel => NoFuel
            end) /\
       (forall converter,
           converter_for ext = Some converter ->
           read_passage (SrcPath path')
             = match converter path' passage_id with
               | Ret p => Ret (InPassage p, passage_id)
               | Raise e' => Raise e'
               | NoFuel => NoFuel
               end))).
Proof.
  intros Hmissing Hpre.
  assert (Hends : forall file e,
             read_passage file = Raise e ->
             read_passages cfg (pre ++ file :: post) = (yielded, Raise e)).
  { intros file e Hfile. rewrite read_passages_app, Hpre.
    cbn [read_passages]. rewrite Hfile. cbn. by rewrite app_nil_r. }
  assert (Hone : read_passage (SrcPath path)
                 = Raise (IOError (String.append "File not found: " path))).
  { unfold read_passage. by rewrite Hmissing. }
  split; [exact Hone|]. split; [by apply Hends|]. split; [exact Hends|].
  intros path' e passage_id ext Hexists Hfile He Hsplit.
  assert (Hhandler :
            match file2passage path' with
            | Raise (IOError _) | Raise ParseError => True
            | _ => False
            end).
  { rewrite Hfile. by destruct He as [-> | [msg ->]]. }
  rewrite Hfile in Hhandler.
  split.
  - intros e' Hopen. unfold read_passage.
    rewrite Hexists, Hfile, Hsplit, Hopen. by destruct e.
  - intros Hopen. split.
    + intros Hconv. unfold read_passage.
      rewrite Hexists, Hfile, Hsplit, Hopen, Hconv. by destruct e.
    + intros converter Hconv. unfold read_passage.
      rewrite Hexists, Hfile, Hsplit, Hopen, Hconv. by destruct e.
Qed.

End ReadingFacts.

(** The hypotheses of the amended C9 hold in the small instance: [a.xml]
    is read, [nope] does not exist, [notes.txt] is plain text, and
    [locked.xml] exists but cannot be opened. *)
Lemma read_passages_missing_file_witness :
  let pre : list (Source (@Passage Toy.collab)) := [SrcPath "a.xml"] in
  let post : list (Source (@Passage Toy.collab)) := [SrcPath "b.xml"] in
  let yielded : list (Input (@Passage Toy.collab) * string) :=
    [(InPassage Toy.easy, "toy"%string)] in
  (@path_exists Toy.collab Toy.files "nope" = false /\
   @read_passages Toy.collab Toy.files Toy.cfg pre = (yielded, Ret tt) /\
   @path_exists Toy.collab Toy.files "notes.txt" = true /\
   @file2passage Toy.collab Toy.files "notes.txt" = Raise ParseError /\
   @splitext_basename Toy.collab Toy.files "notes.txt"
     = ("notes", ".txt")%string /\
   @open_file Toy.collab Toy.files "notes.txt" = Ret tt /\
   @converter_for Toy.collab Toy.files ".txt" = None) /\
  @read_passages Toy.collab Toy.files Toy.cfg (pre ++ SrcPath "nope" :: post)
    = (yielded, Raise (IOError "File not found: nope")) /\
  @read_passage Toy.collab Toy.files (SrcPath "notes.txt")
    = Ret (InTokens [["one"; "two"]; ["three"]]%string, "notes"%string) /\
  @read_passage Toy.collab Toy.files (SrcPath "locked.xml")
    = Raise (IOError "Permission denied: locked.xml").
Proof.
  intros pre post yielded.
  assert (H1 : @path_exists Toy.collab Toy.files "nope" = false) by reflexivity.
  assert (H2 : @read_passages Toy.collab Toy.files Toy.cfg pre = (yielded, Ret tt))
    by reflexivity.
  assert (H3 : @path_exists Toy.collab Toy.files "notes.txt" = true)
    by reflexivity.
  assert (H4 : @file2passage Toy.collab Toy.files "notes.txt" = Raise ParseError)
    by reflexivity.
  assert (H5 : @splitext_basename Toy.collab Toy.files "notes.txt"
               = ("notes", ".txt")%string) by reflexivity.
  assert (H6 : @open_file Toy.collab Toy.files "notes.txt" = Ret tt)
    by reflexivity.
  assert (H7 : @converter_for Toy.collab Toy.files ".txt" = None) by reflexivity.
  assert (L1 : @path_exists Toy.collab Toy.files "locked.xml" = true)
    by reflexivity.
  assert (L2 : @file2passage Toy.collab Toy.files "locked.xml"
               = Raise (IOError "Permission denied: locked.xml")) by reflexivity.
  assert (L3 : @splitext_basename Toy.collab Toy.files "locked.xml"
               = ("locked.xml", EmptyString)%string) by reflexivity.
  assert (L4 : @open_file Toy.collab Toy.files "locked.xml"
               = Raise (IOError "Permission denied: locked.xml")) by reflexivity.
  destruct (@read_passages_missing_file Toy.collab Toy.files Toy.cfg pre post
              "nope" yielded H1 H2) as (_ & Hbatch & _ & Hfallback).
  destruct (Hfallback "notes.txt"%string ParseError "notes"%string ".txt"%string
              H3 H4 (or_introl eq_refl) H5) as (_ & Htext).
  destruct (Htext H6) as (Hplain & _).
  destruct (Hfallback "locked.xml"%string
              (IOError "Permission denied: locked.xml")
              "locked.xml"%string EmptyString
              L1 L2 (or_intror (ex_intro _ _ eq_refl)) L3) as (Hlocked & _).
  exact (conj (conj H1 (conj H2 (conj H3 (conj H4 (conj H5 (conj H6 H7))))))
           (conj Hbatch (conj (Hplain H7) (Hlocked _ L4)))).
Defined.

(** C9 as stated fails. In the batch [a.xml], [nope], [b.xml] the missing
    file [nope] ends the read: [a.xml] has been yielded, [IOError] "File
    not found: nope" leaves [read_passages], and [b.xml], which is read
    when [nope] is not in the batch, is never reached. Input that cannot
    be read or parsed ends the batch in the same way: [locked.xml], which
    exists but cannot be opened, and [bad.sdp], on which the converter of
    its extension fails. *)
Lemma read_passages_counterexample :
  @read_passages Toy.collab Toy.files Toy.cfg
    [SrcPath "a.xml"; SrcPath "nope"; SrcPath "b.xml"]
    = ([(InPassage Toy.easy, "toy"%string)],
       Raise (IOError "File not found: nope")) /\
  @read_passages Toy.collab Toy.files Toy.cfg [SrcPath "a.xml"; SrcPath "b.xml"]
    = ([(InPassage Toy.easy, "toy"%string); (InPassage Toy.hard, "toy"%string)],
       Ret tt) /\
  @read_passages Toy.collab Toy.files Toy.cfg
    [SrcPath "a.xml"; SrcPath "locked.xml"; SrcPath "b.xml"]
    = ([(InPassage Toy.easy, "toy"%string)],
       Raise (IOError "Permission denied: locked.xml")) /\
  @read_passages Toy.collab Toy.files Toy.cfg
    [SrcPath "a.xml"; SrcPath "bad.sdp"; SrcPath "b.xml"]
    = ([(InPassage Toy.easy, "toy"%string)], Raise ValueError).
Proof. split; [|split; [|split]]; reflexivity. Qed.


(** * Further properties *)

(** ** The action that [predict_action] returns *)

Section PredictMore.

Context `{C : Collab}.
Import PySpec.


End PredictMore.



(** ** What the computations keep *)

Section InvariantRules.

Context `{C : Collab}.










Lemma only_ret {A} (S : exn -> Prop) (a : A) : raises_only S (ret a).
Proof. by intros w e. Qed.

Lemma only_raise {A} (S : exn -> Prop) (e : exn) :
  S e -> raises_only S (@raise _ A e).
Proof. intros He w e' [= <-]. done. Qed.

Lemma only_no_fuel {A} (S : exn -> Prop) : raises_only S (@no_fuel _ A).
Proof. by intros w e. Qed.

Lemma only_get {A} (S : exn -> Prop) (f : World -> A) : raises_only S (get f).
Proof. by intros w e. Qed.

Lemma only_modify (S : exn -> Prop) (f : World -> World) :
  raises_only S (modify f).
Proof. by intros w e. Qed.

Lemma only_get_some {A} (S : exn -> Prop) (f : World -> option A) :
  S AttributeError -> raises_only S (get_some f).
Proof.
  intros HS w e. unfold get_some. destruct (f w); [done|].
  by intros [= <-].
Qed.

Lemma only_lift {A} (S : exn -> Prop) (o : outcome A) :
  (forall e, o = Raise e -> S e) -> raises_only S (lift o).
Proof. intros Ho w e. apply Ho. Qed.

Lemma only_bind {A B} (S : exn -> Prop) (m : M A) (k : A -> M B) :
  raises_only S m -> (forall a, raises_only S (k a)) ->
  raises_only S (bind m k).
Proof.
  intros Hm Hk w e. unfold bind. specialize (Hm w).
  destruct (m w) as [[a|e'|] w1]; cbn in *.
  - apply Hk.
  - intros [= <-]. by apply Hm.
  - done.
Qed.

Lemma only_try_except {A} (S S' : exn -> Prop) (m : M A)
    (h : exn -> option (M A)) :
  raises_only S' m ->
  (forall e, S' e ->
     match h e with
     | Some handler => raises_only S handler
     | None => S e
     end) ->
  raises_only S (try_except m h).
Proof.
  intros Hm Hh w e. unfold try_except. specialize (Hm w).
  destruct (m w) as [[a|e'|] w1]; cbn in *; [done| |done].
  specialize (Hh e' (Hm e' eq_refl)).
  destruct (h e') as [handler|].
  - apply Hh.
  - by intros [= <-].
Qed.

End InvariantRules.


Section StepInvariants.

Context `{C : Collab}.
Variable cfg : Config.
Variable train : bool.
Variable P : World -> Prop.

Hypothesis P_state : forall x w, P w -> P (set_state (Some x) w).
Hypothesis P_oracle : forall x w, P w -> P (set_oracle (Some x) w).
Hypothesis P_scores : forall x w, P w -> P (set_scores x w).
Hypothesis P_trace : forall x w, P w -> P (set_trace x w).
Hypothesis P_train :
  train = true ->
  (forall x w, P w -> P (set_model (Some x) w)) /\
  (forall x w, P w -> P (set_random x w)).







(** The rest of [parse_passage] and of [parse] keeps what a turn
    keeps. *)
Hypothesis P_step : forall true_actions,
  invariant P (step_with cfg train true_actions).




End StepInvariants.

Section ParseInvariants.

Context `{C : Collab}.
Variable cfg : Config.
Variable train : bool.
Variable P : World -> Prop.

Hypothesis P_state : forall x w, P w -> P (set_state (Some x) w).
Hypothesis P_oracle : forall x w, P w -> P (set_oracle x w).
Hypothesis P_scores : forall x w, P w -> P (set_scores x w).
Hypothesis P_counts : forall a c w, P w -> P (set_counts a c w).
Hypothesis P_totals : forall a c w, P w -> P (set_totals a c w).
Hypothesis P_trace : forall x w, P w -> P (set_trace x w).
Hypothesis P_train :
  train = true ->
  (forall x w, P w -> P (set_model (Some x) w)) /\
  (forall x w, P w -> P (set_random x w)).







End ParseInvariants.

Section KeepFacts.

Context `{C : Collab}.
Variable cfg : Config.


End KeepFacts.


(** ** The accuracy counters *)

Section CountFacts.

Context `{C : Collab}.
Variable cfg : Config.
Variable train : bool.







End CountFacts.

Section CountTheorem.

Context `{C : Collab}.
Variable cfg : Config.


End CountTheorem.



(** ** What [parse] yields, and the epochs of [train] *)

Section HoareRules.

Context `{C : Collab}.



Lemma hoare_weaken {A} (P P' : World -> Prop) (Q Q' : A -> World -> Prop)
    (m : M A) :
  hoare P' m Q' -> (forall w, P w -> P' w) ->
  (forall a w, Q' a w -> Q a w) -> hoare P m Q.
Proof. intros Hm HP HQ w a w' Hw Hrun. eapply HQ, Hm; eauto. Qed.


Lemma hoare_invariant {A} (P : World -> Prop) (m : M A) :
  invariant P m -> hoare P m (fun _ => P).
Proof.
  intros Hm w a w' Hw Hrun. specialize (Hm w Hw). by rewrite Hrun in Hm.
Qed.

End HoareRules.

Section YieldFacts.

Context `{C : Collab}.
Variable cfg : Config.




End YieldFacts.


Section EpochFacts.

Context `{C : Collab}.
Variable cfg : Config.











End EpochFacts.





(** ** Verification of the parsed passages *)

Section VerifyFacts.

Context `{C : Collab}.
Variable cfg : Config.





End VerifyFacts.



(** ** The scores of [train_test] *)

Section TrainTestFacts.

Context `{C : Collab}.
Variable cfg : Config.




End TrainTestFacts.



(** ** The folds, for any number of folds *)

Section FoldsMore.

Context {A : Type}.

(** [l[c::k]] holds the items at the positions [c], [c + k],
    [c + 2k], ... *)
Lemma slice_step_lookup (k : nat) (l : list A) :
  (0 < k)%nat ->
  forall c j, Py.slice_step k c l !! j = l !! (c + j * k)%nat.
Proof.
  intros Hk. induction l as [|x rest IH]; intros c j; [done|].
  destruct c as [|c']; cbn [Py.slice_step].
  - destruct j as [|j']; [done|].
    cbn [lookup list_lookup]. rewrite IH.
    replace (0 + S j' * k)%nat with (S (k - 1 + j' * k)) by lia. done.
  - rewrite IH. done.
Qed.

Lemma slice_step_length_bounds (k i : nat) (l : list A) :
  (0 < k)%nat ->
  let m := length (Py.slice_step k i l) in
  (length l <= i + m * k)%nat /\
  (0 < m -> i + (m - 1) * k < length l)%nat.
Proof.
  intros Hk m. split.
  - assert (Hnone : Py.slice_step k i l !! m = None)
      by (by apply lookup_ge_None_2).
    rewrite slice_step_lookup in Hnone by done.
    by apply lookup_ge_None_1 in Hnone.
  - intros Hm.
    assert (Hsome : is_Some (Py.slice_step k i l !! (m - 1)%nat))
      by (apply lookup_lt_is_Some_2; lia).
    rewrite slice_step_lookup in Hsome by done.
    by apply lookup_lt_is_Some_1 in Hsome.
Qed.

(** X10. The folds of [main] for any [k] with [1 <= k <= len(all_passages)]
    (what the assertion of [main] requires): fold [i] holds the passages
    at the positions [i], [i + k], [i + 2k], ..., no fold is empty, and
    the sizes of two folds differ by one at most. *)
Theorem folds_balanced (k : nat) (all_passages : list A) :
  (0 < k <= length all_passages)%nat ->
  forall i fold,
    make_folds k all_passages !! i = Some fold ->
    (forall j, fold !! j = all_passages !! (i + j * k)%nat) /\
    fold <> [] /\
    (forall i' fold',
        make_folds k all_passages !! i' = Some fold' ->
        (length fold <= length fold' + 1)%nat).
Proof.
  intros [Hk Hlen] i fold Hfold.
  assert (Hi : (i < k)%nat).
  { apply lookup_lt_Some in Hfold. by rewrite make_folds_length in Hfold. }
  rewrite make_folds_lookup in Hfold by done. injection Hfold as <-.
  split; [|split].
  - intros j. by apply slice_step_lookup.
  - intros Hnil.
    assert (Hzero : Py.slice_step k i all_passages !! 0%nat = None)
      by (by rewrite Hnil).
    rewrite slice_step_lookup in Hzero by done.
    apply lookup_ge_None_1 in Hzero. lia.
  - intros i' fold' Hfold'.
    assert (Hi' : (i' < k)%nat).
    { apply lookup_lt_Some in Hfold'.
      by rewrite make_folds_length in Hfold'. }
    rewrite make_folds_lookup in Hfold' by done. injection Hfold' as <-.
    destruct (slice_step_length_bounds k i all_passages Hk) as [_ Hup].
    destruct (slice_step_length_bounds k i' all_passages Hk) as [Hlow _].
    cbn zeta in Hup, Hlow.
    set (m := length (Py.slice_step k i all_passages)) in *.
    set (m' := length (Py.slice_step k i' all_passages)) in *.
    destruct (decide (m <= m' + 1)%nat) as [|Hgt]; [done|exfalso].
    assert (Hm : (0 < m)%nat) by lia. specialize (Hup Hm).
    assert (Hsteps : ((m' + 1) * k <= (m - 1) * k)%nat)
      by (apply Nat.mul_le_mono_r; lia).
    lia.
Qed.

Lemma slice_step_all (l : list A) : Py.slice_step 1 0 l = l.
Proof. induction l as [|x rest IH]; [done|]. cbn. by rewrite IH. Qed.

Lemma perm_take_out (i : nat) (js : list nat) :
  NoDup js -> i ∈ js -> js ≡ₚ i :: filter (fun j => j ≠ i) js.
Proof.
  induction js as [|j js IH]; intros Hnd Hin; [by apply elem_of_nil in Hin|].
  apply NoDup_cons in Hnd as [Hj Hnd]. rewrite filter_cons.
  destruct (decide (j = i)) as [->|Hne].
  - rewrite decide_False by (intros Hii; by apply Hii).
    replace (filter (fun j => j ≠ i) js) with js; [done|].
    symmetry. clear IH Hnd Hin. induction js as [|j js IH]; [done|].
    apply not_elem_of_cons in Hj as [Hij Hj].
    rewrite filter_cons, decide_True by done. f_equal. by apply IH.
  - rewrite decide_True by done.
    apply elem_of_cons in Hin as [->|Hin]; [done|].
    rewrite (IH Hnd Hin) at 1. apply Permutation_swap.
Qed.

Lemma concat_perm (ls ks : list (list A)) :
  ls ≡ₚ ks -> concat ls ≡ₚ concat ks.
Proof.
  induction 1 as [|x ls ks _ IH|x y ls|ls ks ms _ IH1 _ IH2]; cbn [concat].
  - done.
  - by rewrite IH.
  - rewrite !app_assoc. f_equiv. apply Permutation_app_comm.
  - by rewrite IH1.
Qed.

Lemma fold_split_partition (k i : nat) (l : list A) :
  (2 <= k)%nat -> (i < k)%nat ->
  let s := fold_split k (make_folds k l) i in
  s.1.1 ++ s.1.2 ++ s.2 ≡ₚ l.
Proof.
  intros Hk Hi. cbn zeta. rewrite fold_split_spec by done.
  cbn [fst snd].
  set (t := ((i + 1) mod k)%nat).
  set (f := fun j => Py.slice_step k j l).
  assert (Ht : (t < k)%nat) by (apply Nat.mod_upper_bound; lia).
  assert (Hit : i ≠ t).
  { subst t. destruct (decide (i + 1 = k)%nat) as [Heq|Hne].
    - rewrite Heq, Nat.Div0.mod_same. lia.
    - rewrite Nat.mod_small by lia. lia. }
  assert (Hseq : seq 0 k
                 ≡ₚ t :: i :: filter (fun j => j ≠ i ∧ j ≠ t) (seq 0 k)).
  { rewrite <- list_filter_filter.
    rewrite (perm_take_out t (seq 0 k)) at 1;
      [|apply NoDup_seq|apply elem_of_seq; lia].
    constructor. apply perm_take_out.
    - apply NoDup_filter, NoDup_seq.
    - apply list_elem_of_filter. split; [done|]. apply elem_of_seq. lia. }
  assert (Hfolds : f <$> seq 0 k
                   ≡ₚ f t :: f i
                      :: (f <$> filter (fun j => j ≠ i ∧ j ≠ t) (seq 0 k))).
  { by rewrite Hseq at 1. }
  transitivity (concat (make_folds k l)); [|apply make_folds_perm; lia].
  unfold make_folds. fold f. rewrite (concat_perm _ _ Hfolds).
  cbn [concat]. solve_Permutation.
Qed.

(** X11. How the number of folds decides the roles. With one fold all
    the passages are the dev passages and the test passages and none
    is trained on; with two folds each call gets one fold as dev, the
    other as test, and again an empty training list; from three folds
    on (and at least as many passages as folds) every call gets a
    non-empty training list, and its train, dev and test lists
    together are a permutation of all the passages. *)
Theorem fold_roles_by_k (k : nat) (all_passages : list A) :
  let splits := cross_validation_splits k all_passages in
  (k = 1%nat -> splits = [([], all_passages, all_passages)]) /\
  (k = 2%nat -> Forall (fun s => s.1.1 = []) splits) /\
  ((3 <= k <= length all_passages)%nat ->
   Forall (fun s => s.1.1 <> [] /\ s.1.1 ++ s.1.2 ++ s.2 ≡ₚ all_passages)
     splits).
Proof.
  cbn zeta. split; [|split].
  - intros ->. unfold cross_validation_splits, make_folds, fold_split.
    cbn. by rewrite slice_step_all.
  - intros ->. unfold cross_validation_splits.
    cbn [seq fmap list_fmap]. by repeat constructor.
  - intros [Hk Hlen]. unfold cross_validation_splits.
    apply Forall_fmap, Forall_forall. intros i Hi.
    apply elem_of_seq in Hi. cbn [compose].
    split; [|apply fold_split_partition; lia].
    rewrite fold_split_spec by lia. cbn [fst].
    set (t := ((i + 1) mod k)%nat).
    assert (Hj : exists j, (j < k)%nat /\ j ≠ i /\ j ≠ t).
    { destruct (decide (i = 0%nat)), (decide (t = 0%nat)),
        (decide (i = 1%nat)), (decide (t = 1%nat));
        try (exists 0%nat; lia); try (exists 1%nat; lia);
        exists 2%nat; lia. }
    destruct Hj as (j & Hjk & Hji & Hjt).
    destruct (all_passages !! j) as [x|] eqn:Hx;
      [|apply lookup_ge_None_1 in Hx; lia].
    assert (Hin : x ∈ concat ((fun j0 => Py.slice_step k j0 all_passages)
                       <$> filter (fun j0 => j0 ≠ i ∧ j0 ≠ t) (seq 0 k))).
    { apply list_elem_of_In, in_concat.
      exists (Py.slice_step k j all_passages). split.
      - apply list_elem_of_In, list_elem_of_fmap. exists j. split; [done|].
        apply list_elem_of_filter. split; [done|]. apply elem_of_seq. lia.
      - apply list_elem_of_In, list_elem_of_lookup. exists 0%nat.
        rewrite slice_step_lookup by lia. by rewrite Nat.add_0_r. }
    intros Hnil. rewrite Hnil in Hin. by apply elem_of_nil in Hin.
Qed.

End FoldsMore.

(** The hypothesis of X10 holds on ten items in three folds, which have
    four, three and three items. *)
Lemma folds_balanced_witness :
  let all_passages := seq 0 10 in
  (0 < 3 <= length all_passages)%nat /\
  make_folds 3 all_passages = [[0; 3; 6; 9]; [1; 4; 7]; [2; 5; 8]]%nat /\
  (forall i fold, make_folds 3 all_passages !! i = Some fold -> fold <> []).
Proof.
  intros all_passages.
  assert (H1 : (0 < 3 <= length all_passages)%nat) by (cbn; lia).
  exact (conj H1 (conj eq_refl
           (fun i fold Hfold =>
              proj1 (proj2 (@folds_balanced nat 3 all_passages H1 i fold
                              Hfold))))).
Defined.

(** The hypothesis of the third part of X11 holds on seven items in
    three folds. *)
Lemma fold_roles_by_k_witness :
  let all_passages := seq 0 7 in
  (3 <= 3 <= length all_passages)%nat /\
  Forall (fun s : list nat * list nat * list nat =>
            s.1.1 <> [] /\ s.1.1 ++ s.1.2 ++ s.2 ≡ₚ all_passages)
    (cross_validation_splits 3 all_passages).
Proof.
  intros all_passages.
  assert (H1 : (3 <= 3 <= length all_passages)%nat) by (cbn; lia).
  exact (conj H1 (proj2 (proj2 (@fold_roles_by_k nat 3 all_passages)) H1)).
Defined.


(** ** Reading plain text and batches of files *)

Section ReadingMore.

Context `{F : Files}.
Variable cfg : Config.

Lemma paragraphs_concat (lines : list string) :
  forall current,
    concat (paragraphs lines current)
    = default [] current
      ++ concat (str_split <$> filter (fun line => line ≠ EmptyString) lines).
Proof.
  induction lines as [|line rest IH]; intros current; cbn [paragraphs].
  - destruct current; cbn; by rewrite ?app_nil_r.
  - rewrite filter_cons. destruct (String.eqb line EmptyString) eqn:Hline.
    + apply String.eqb_eq in Hline. rewrite decide_False by auto.
      destruct current as [p|]; cbn [concat default]; by rewrite IH.
    + apply String.eqb_neq in Hline. rewrite decide_True by done.
      rewrite IH. cbn [default fmap list_fmap concat].
      by rewrite app_assoc.
Qed.

Lemma paragraphs_nonempty (lines : list string) :
  Forall (fun line => line ≠ EmptyString -> str_split line ≠ []) lines ->
  forall current,
    (forall p, current = Some p -> p ≠ []) ->
    Forall (fun p => p ≠ []) (paragraphs lines current).
Proof.
  induction 1 as [|line rest Hline _ IH]; intros current Hcur;
    cbn [paragraphs].
  - destruct current as [p|]; [|done]. constructor; [by apply Hcur|done].
  - destruct (String.eqb line EmptyString) eqn:Hblank.
    + destruct current as [p|].
      * constructor; [by apply Hcur|]. by apply IH.
      * by apply IH.
    + apply String.eqb_neq in Hblank. apply IH.
      intros p [= <-] Hnil. apply app_eq_nil in Hnil as [_ Hnil].
      by apply Hline.
Qed.

(** X12. Plain text is cut into paragraphs without losing a token: the
    tokens of the paragraphs, in order, are the tokens of the non-blank
    lines, in order; a text of blank lines only gives no paragraph;
    and no paragraph is empty when every non-blank line has a token
    (as a stripped non-empty line has). *)
Theorem paragraphs_tokens (lines : list string) :
  concat (paragraphs lines None)
    = concat (str_split
                <$> filter (fun line => line ≠ EmptyString) lines) /\
  (Forall (fun line => line = EmptyString) lines ->
   paragraphs lines None = []) /\
  (Forall (fun line => line ≠ EmptyString -> str_split line ≠ []) lines ->
   Forall (fun p => p ≠ []) (paragraphs lines None)).
Proof.
  split; [|split].
  - by rewrite paragraphs_concat.
  - induction 1 as [|line rest -> _ IH]; [done|]. by cbn.
  - intros Hlines. by apply paragraphs_nonempty.
Qed.

Lemma read_passages_cons_inv file rest ys ending :
  split cfg = false ->
  read_passages cfg (file :: rest) = (ys, ending) ->
  match read_passage file with
  | Ret y =>
      exists more, ys = y :: more /\ read_passages cfg rest = (more, ending)
  | Raise e => ys = [] /\ ending = Raise e
  | NoFuel => ys = [] /\ ending = NoFuel
  end.
Proof.
  intros Hsplit. cbn [read_passages]. rewrite Hsplit.
  destruct (read_passage file) as [[passage i]| |].
  - destruct (read_passages cfg rest) as [more ending'].
    intros [= <- <-]. by exists more.
  - by intros [= <- <-].
  - by intros [= <- <-].
Qed.

(** X13. Without [Config().split], [read_passages] yields the result of
    [read_passage] for each file, in order, up to the first file on
    which [read_passage] raises: it ends normally only after all the
    files, and otherwise with the exception of the first file that
    could not be read, with exactly the files before it yielded. *)
Theorem read_passages_until_error (files : list (Source Passage))
    (yielded : list (Input Passage * string)) (ending : outcome unit) :
  split cfg = false ->
  read_passages cfg files = (yielded, ending) ->
  Forall2 (fun file y => read_passage file = Ret y)
    (take (length yielded) files) yielded /\
  match ending with
  | Ret _ => length yielded = length files
  | Raise e =>
      exists file, files !! length yielded = Some file /\
                   read_passage file = Raise e
  | NoFuel =>
      exists file, files !! length yielded = Some file /\
                   read_passage file = NoFuel
  end.
Proof.
  intros Hsplit. revert yielded.
  induction files as [|file rest IH]; intros yielded Hrun.
  - injection Hrun as <- <-. by split.
  - apply read_passages_cons_inv in Hrun; [|done].
    destruct (read_passage file) as [y| |] eqn:Hfile.
    + destruct Hrun as (more & -> & Hrest).
      destruct (IH more Hrest) as [Hall Hend]. cbn [length take].
      split; [by constructor|]. destruct ending as [[]|e|]; cbn; auto.
    + destruct Hrun as [-> ->]. split; [constructor|]. by exists file.
    + destruct Hrun as [-> ->]. split; [constructor|]. by exists file.
Qed.

End ReadingMore.

(** The hypotheses of the third part of X12 hold on the lines of the
    plain text file of the small instance. *)
Lemma paragraphs_tokens_witness :
  let lines := ["one two"; EmptyString; "three"]%string in
  Forall (fun line => line ≠ EmptyString ->
                      @str_split Toy.collab Toy.files line ≠ []) lines /\
  @paragraphs Toy.collab Toy.files lines None
    = [["one"; "two"]; ["three"]]%string /\
  Forall (fun p => p ≠ []) (@paragraphs Toy.collab Toy.files lines None).
Proof.
  intros lines.
  assert (H1 : Forall (fun line => line ≠ EmptyString ->
                         @str_split Toy.collab Toy.files line ≠ []) lines).
  { repeat constructor; intros _; discriminate. }
  exact (conj H1 (conj eq_refl
           (proj2 (proj2 (@paragraphs_tokens Toy.collab Toy.files lines))
              H1))).
Defined.

(** The hypotheses of X13 hold in the small instance, on a batch whose
    second file does not exist. *)
Lemma read_passages_until_error_witness :
  let files : list (Source (@Passage Toy.collab)) :=
    [SrcPath "a.xml"; SrcPath "nope"; SrcPath "b.xml"] in
  let yielded : list (Input (@Passage Toy.collab) * string) :=
    [(InPassage Toy.easy, "toy"%string)] in
  let ending : outcome unit := Raise (IOError "File not found: nope") in
  split Toy.cfg = false /\
  @read_passages Toy.collab Toy.files Toy.cfg files = (yielded, ending) /\
  exists file, files !! 1%nat = Some file /\
               @read_passage Toy.collab Toy.files file
               = Raise (IOError "File not found: nope").
Proof.
  intros files yielded ending.
  assert (H1 : split Toy.cfg = false) by reflexivity.
  assert (H2 : @read_passages Toy.collab Toy.files Toy.cfg files
               = (yielded, ending)) by reflexivity.
  exact (conj H1 (conj H2
           (proj2 (@read_passages_until_error Toy.collab Toy.files Toy.cfg
                     files yielded ending H1 H2)))).
Defined.


(** ** Files and directories, output files, POS tags *)

Section DirsFacts.

Context `{F : Files} `{D : Dirs}.
Variable cfg : Config.

(** X14. The files that [read_files_and_dirs] reads are the arguments
    that are not directories and the entries directly under the
    arguments that are directories, joined to them; no directory is
    ever read as a file, so the entries of a directory that are
    directories themselves are dropped, not descended into. The
    arguments that are files come first, in the order given, and a
    list without directories is read as it is. *)
Theorem expand_files_spec (files_and_dirs : list string) :
  (forall x,
      x ∈ expand_files files_and_dirs <->
      isdir x = false /\
      (x ∈ files_and_dirs \/
       exists d f, d ∈ files_and_dirs /\ isdir d = true /\
                   f ∈ listdir d /\ x = path_join d f)) /\
  filter (fun f => isdir f = false) files_and_dirs
    `prefix_of` expand_files files_and_dirs /\
  (Forall (fun f => isdir f = false) files_and_dirs ->
   expand_files files_and_dirs = files_and_dirs).
Proof.
  unfold expand_files. cbn zeta. split; [|split].
  - intros x. rewrite list_elem_of_filter, elem_of_app.
    split; intros [Hfile Hin]; (split; [done|]).
    + destruct Hin as [Hin|Hin]; [by left|right].
      apply list_elem_of_In, in_concat in Hin as (entries & Hentries & Hx).
      apply list_elem_of_In, list_elem_of_fmap in Hentries
        as (d & -> & Hd).
      apply list_elem_of_In in Hx.
      destruct (isdir d) eqn:Hdir; [|by apply elem_of_nil in Hx].
      apply list_elem_of_fmap in Hx as (f & -> & Hf). by exists d, f.
    + destruct Hin as [Hin|(d & f & Hd & Hdir & Hf & ->)]; [by left|right].
      apply list_elem_of_In, in_concat.
      exists (path_join d <$> listdir d). split.
      * apply list_elem_of_In, list_elem_of_fmap. exists d.
        by rewrite Hdir.
      * by apply list_elem_of_In, list_elem_of_fmap_2.
  - rewrite filter_app. by eexists.
  - intros Hfiles.
    assert (Hnone : concat ((fun d => if isdir d
                                      then path_join d <$> listdir d
                                      else []) <$> files_and_dirs) = []).
    { induction Hfiles as [|d rest Hd _ IH]; [done|].
      cbn [fmap list_fmap concat]. by rewrite Hd, IH. }
    rewrite Hnone, app_nil_r. clear Hnone.
    induction Hfiles as [|d rest Hd _ IH]; [done|].
    rewrite filter_cons, decide_True by done. by rewrite IH.
Qed.

End DirsFacts.

Section OutfileFacts.

Lemma string_length_append (s t : string) :
  String.length (String.append s t)
  = (String.length s + String.length t)%nat.
Proof. induction s as [|a s IH]; [done|]. simpl. by f_equal. Qed.

Lemma string_append_inj_r (t s1 s2 : string) :
  String.append s1 t = String.append s2 t -> s1 = s2.
Proof.
  revert s2. induction s1 as [|a s1 IH]; intros [|b s2] Heq.
  - done.
  - apply (f_equal String.length) in Heq.
    rewrite !string_length_append in Heq. simpl in Heq. lia.
  - apply (f_equal String.length) in Heq.
    rewrite !string_length_append in Heq. simpl in Heq. lia.
  - simpl in Heq. injection Heq as -> Heq. f_equal. by apply IH.
Qed.

(** X15. [write_passage] gives passages with different IDs different
    files: in one directory, with one prefix and one format, the name
    of the output file determines the passage ID. *)
Theorem outfile_determines_ID (outdir sep prefix ID1 ID2 : string)
    (binary : bool) :
  outfile outdir sep prefix ID1 binary = outfile outdir sep prefix ID2 binary
  <-> ID1 = ID2.
Proof.
  split; [|by intros ->].
  unfold outfile. intros Heq.
  apply string_append_inj_r in Heq.
  by apply (String.app_inj _) in Heq.
Qed.

End OutfileFacts.

Section PosTagFacts.

Variable Node : Type.
Variable set_pos_tag : Node -> string -> Node.
Variable tagger : list string -> list (string * string).

Lemma zip_with_rest_lookup (nodes : list Node) :
  forall (tags : list string) (i : nat),
    (zip_with set_pos_tag nodes tags ++ drop (length tags) nodes) !! i
    = (fun node => match tags !! i with
                   | Some tag => set_pos_tag node tag
                   | None => node
                   end) <$> nodes !! i.
Proof.
  induction nodes as [|node rest IH]; intros tags i.
  - by destruct tags.
  - destruct tags as [|tag tags'].
    + cbn [zip_with length drop app]. by destruct ((node :: rest) !! i).
    + destruct i as [|i']; [done|]. cbn. apply IH.
Qed.

(** X16. [Parser.pos_tag] keeps the nodes of the state and their
    order: node [i] gets the tag of the [i]-th pair of the tagger, and
    the nodes beyond the last pair are left as they are; the tags
    beyond the last node are ignored. When the tagger returns no pair
    (for a state without tokens), the call raises [ValueError]. *)
Theorem pos_tag_spec (state_tokens : list (list string))
    (nodes : list Node) :
  let pairs := tagger (concat state_tokens) in
  match pos_tag Node set_pos_tag tagger state_tokens nodes with
  | Ret nodes' =>
      pairs <> [] /\ length nodes' = length nodes /\
      forall i,
        nodes' !! i
        = (fun node => match pairs !! i with
                       | Some p => set_pos_tag node p.2
                       | None => node
                       end) <$> nodes !! i
  | Raise e => e = ValueError /\ pairs = []
  | NoFuel => False
  end.
Proof.
  cbn zeta. unfold pos_tag. cbn zeta.
  destruct (tagger (concat state_tokens)) as [|p0 pairs'] eqn:Hpairs;
    [done|].
  set (pairs := p0 :: pairs').
  assert (Hlookup : forall i,
             (zip_with set_pos_tag nodes pairs.*2
                ++ drop (length pairs.*2) nodes) !! i
             = (fun node => match pairs !! i with
                            | Some p => set_pos_tag node p.2
                            | None => node
                            end) <$> nodes !! i).
  { intros i. rewrite zip_with_rest_lookup, list_lookup_fmap.
    by destruct (pairs !! i). }
  split; [done|]. split; [|exact Hlookup].
  rewrite length_app, length_zip_with, length_drop. lia.
Qed.

End PosTagFacts.
